(** * x402 backend: proof codec, signature verifier, nonce ledger, payment gate

    A shallow embedding of [src/verify.js], [src/nonceStore.js] and the
    request handler of the server entry point, together with the properties
    of the specification that concern them.

    Conventions of the embedding.
    - A JavaScript string is a [string]: a sequence of code units in 0..255.
      This is the range Node gives to the value of an HTTP header (header
      bytes are decoded as Latin-1), which is where every string of the
      proof path comes from.
    - A [Buffer] / [Uint8Array] is a [list byte].
    - [Date.now()] and [uuidv4()] are inputs of the operation that calls
      them: the caller of the model supplies the clock reading and the
      identifier the generator returns.
    - A JavaScript call that may throw returns an [outcome]; [try]/[catch]
      is [try_catch]. A run of the request handler is a [result]: the
      answer sent or the exception that ended the run, the store left, and
      the calls made on the store.
    - Timestamps and the TTL are integers ([Z]); prices are opaque. *)

From Stdlib Require Import ZArith NArith Ascii String List Lia.
From Stdlib.Strings Require Import Byte.
From stdpp Require Import gmap strings list.

Open Scope string_scope.

(** ** JavaScript control flow: normal return or exception *)

Module Js.

Inductive outcome (A : Type) : Type :=
| Returned (a : A)
| Thrown (err : string).

Arguments Returned {A} a.
Arguments Thrown {A} err.

Definition bind {A B : Type} (m : outcome A) (k : A -> outcome B) : outcome B :=
  match m with
  | Returned a => k a
  | Thrown e => Thrown e
  end.

(** [try { body } catch (e) { handler }] *)
Definition try_catch {A : Type} (body : outcome A) (handler : string -> outcome A)
  : outcome A :=
  match body with
  | Returned a => Returned a
  | Thrown e => handler e
  end.

End Js.

Import Js.

Notation "x <- m ;; k" := (Js.bind m (fun x => k))
  (at level 100, m at next level, right associativity).

(** ** Strings of the platform *)

Module JsString.

(** [s.split(sep)] for a one-character separator: always at least one
    segment, empty segments kept. *)
Fixpoint split (sep : ascii) (s : string) : list string :=
  match s with
  | EmptyString => [EmptyString]
  | String c rest =>
      if Ascii.eqb c sep then EmptyString :: split sep rest
      else match split sep rest with
           | seg :: segs => String c seg :: segs
           | [] => [String c EmptyString]
           end
  end.

(** [s.toLowerCase()] on code units 0..255: A-Z and the Latin-1 capitals
    U+00C0..U+00DE (U+00D7, the multiplication sign, excepted) move up by
    32; every other code unit is its own lower case. *)
Definition lower_unit (c : ascii) : ascii :=
  let n := N_of_ascii c in
  if ((65 <=? n) && (n <=? 90))%N then ascii_of_N (n + 32)
  else if ((192 <=? n) && (n <=? 222) && negb (n =? 215))%N then ascii_of_N (n + 32)
  else c.

Fixpoint toLowerCase (s : string) : string :=
  match s with
  | EmptyString => EmptyString
  | String c rest => String (lower_unit c) (toLowerCase rest)
  end.

(** Whether a character occurs in a string. *)
Fixpoint mentions (c : ascii) (s : string) : bool :=
  match s with
  | EmptyString => false
  | String d rest => Ascii.eqb d c || mentions c rest
  end.

End JsString.

(** ** Node's [Buffer] conversions *)

Module Buffer.

Definition byte_of_N (n : N) : byte :=
  match Byte.of_N (n mod 256) with
  | Some b => b
  | None => x00
  end.

(** *** base64, decoding side: [Buffer.from(s, 'base64')]

    Node's decoder is forgiving and total on strings. It reads the legal
    characters (standard and URL-safe alphabets) in order, skips every
    other character, stops at the first ['='], and turns each group of four
    6-bit values into three bytes; a trailing group of three gives two
    bytes, of two gives one byte, a lone value is dropped. *)

Definition unbase64 (c : ascii) : option N :=
  let n := N_of_ascii c in
  if ((65 <=? n) && (n <=? 90))%N then Some (n - 65)%N
  else if ((97 <=? n) && (n <=? 122))%N then Some (n - 71)%N
  else if ((48 <=? n) && (n <=? 57))%N then Some (n + 4)%N
  else if ((n =? 43) || (n =? 45))%N then Some 62%N
  else if ((n =? 47) || (n =? 95))%N then Some 63%N
  else None.

Fixpoint legal_sextets (s : string) : list N :=
  match s with
  | EmptyString => []
  | String c rest =>
      if Ascii.eqb c "=" then []
      else match unbase64 c with
           | Some v => v :: legal_sextets rest
           | None => legal_sextets rest
           end
  end.

(** The three byte expressions of the decoder, on 6-bit values [hi], [lo]. *)
Definition dec1 (hi lo : N) : N :=
  N.lor (N.shiftl (N.land hi 63) 2) (N.shiftr (N.land lo 48) 4).
Definition dec2 (hi lo : N) : N :=
  N.lor (N.shiftl (N.land hi 15) 4) (N.shiftr (N.land lo 60) 2).
Definition dec3 (hi lo : N) : N :=
  N.lor (N.shiftl (N.land hi 3) 6) (N.land lo 63).

Fixpoint bytes_of_sextets (vs : list N) : list byte :=
  match vs with
  | a :: b :: c :: d :: rest =>
      byte_of_N (dec1 a b) :: byte_of_N (dec2 b c) :: byte_of_N (dec3 c d)
        :: bytes_of_sextets rest
  | [a; b; c] => [byte_of_N (dec1 a b); byte_of_N (dec2 b c)]
  | [a; b] => [byte_of_N (dec1 a b)]
  | _ => []
  end.

Definition from_base64 (s : string) : outcome (list byte) :=
  Returned (bytes_of_sextets (legal_sextets s)).

(** *** base64, encoding side (RFC 4648 with padding): what the client
    sends as the fourth field, [base64(signature-bytes)]. *)

Definition alphabet : string :=
  "ABCDEFGHIJKLMNOPQRSTUVWXYZabcdefghijklmnopqrstuvwxyz0123456789+/".

Definition b64char (v : N) : ascii :=
  match String.get (N.to_nat v) alphabet with
  | Some c => c
  | None => "="%char
  end.

Definition enc1 (x : N) : N := N.shiftr x 2.
Definition enc2 (x y : N) : N := N.lor (N.shiftl (N.land x 3) 4) (N.shiftr y 4).
Definition enc3 (y z : N) : N := N.lor (N.shiftl (N.land y 15) 2) (N.shiftr z 6).
Definition enc4 (z : N) : N := N.land z 63.

Fixpoint base64 (bs : list byte) : string :=
  match bs with
  | [] => ""
  | [a] =>
      let x := Byte.to_N a in
      String (b64char (enc1 x)) (String (b64char (enc2 x 0)) "==")
  | [a; b] =>
      let x := Byte.to_N a in
      let y := Byte.to_N b in
      String (b64char (enc1 x)) (String (b64char (enc2 x y))
        (String (b64char (enc3 y 0)) "="))
  | a :: b :: c :: rest =>
      let x := Byte.to_N a in
      let y := Byte.to_N b in
      let z := Byte.to_N c in
      String (b64char (enc1 x)) (String (b64char (enc2 x y))
        (String (b64char (enc3 y z)) (String (b64char (enc4 z)) (base64 rest))))
  end.

(** *** [buf.toString('hex')]: two lower-case digits per byte *)

Definition hex_digit (v : N) : ascii :=
  if (v <? 10)%N then ascii_of_N (48 + v) else ascii_of_N (87 + v).

Fixpoint to_hex (bs : list byte) : string :=
  match bs with
  | [] => ""
  | b :: rest =>
      let x := Byte.to_N b in
      String (hex_digit (x / 16)) (String (hex_digit (x mod 16)) (to_hex rest))
  end.

(** *** [Buffer.from(s, 'utf8')] on code units 0..255: one byte below 128,
    two bytes from 128 on. *)

Definition utf8_unit (c : ascii) : list byte :=
  let n := N_of_ascii c in
  if (n <? 128)%N then [byte_of_N n]
  else [byte_of_N (N.lor 192 (N.shiftr n 6)); byte_of_N (N.lor 128 (N.land n 63))].

Fixpoint from_utf8 (s : string) : list byte :=
  match s with
  | EmptyString => []
  | String c rest => utf8_unit c ++ from_utf8 rest
  end.

End Buffer.

(** ** verify.js *)

Module Verify.

(** The object [parseProof] returns: [{ ok: false, reason }] or
    [{ ok: true, kind, account, nonce, sigBytes }]. *)
Inductive parsed : Type :=
| ParseFail (reason : string)
| ParseOk (kind account nonce : string) (sigBytes : list byte).

Definition parsed_ok (p : parsed) : bool :=
  match p with
  | ParseFail _ => false
  | ParseOk _ _ _ _ => true
  end.

(** [parseProof(header)]. The argument is [Some s] for a string [s] and
    [None] for any value that is not a string ([undefined], [null], a
    number, an object); the first guard sends all of these, and the empty
    string, to [missing_header]. *)
Definition parseProof (header : option string) : outcome parsed :=
  match header with
  | None => Returned (ParseFail "missing_header")
  | Some "" => Returned (ParseFail "missing_header")
  | Some h =>
      match JsString.split ":" h with
      | [kind; account; nonce; b64sig] =>
          if negb (kind =? "phantom") && negb (kind =? "metamask")
          then Returned (ParseFail "bad_kind")
          else
            Js.try_catch
              (sigBytes <- Buffer.from_base64 b64sig ;;
               Returned (ParseOk kind account nonce sigBytes))
              (fun _ => Returned (ParseFail "bad_b64"))
      | _ => Returned (ParseFail "bad_format")
      end
  end.

(** [msgBytes(nonce)] *)
Definition msgBytes (nonce : string) : list byte :=
  Buffer.from_utf8 ("x402-proof:" +:+ nonce).

(** The verdict objects of [verifyPhantom], [verifyMetaMask] and
    [verifyProof]; a property the object does not have is [None]. *)
Record verdict : Type := Verdict {
  ok : bool;
  who : option string;
  chain : option string;
  reason : option string
}.

Definition failure (r : string) : verdict :=
  {| ok := false; who := None; chain := None; reason := Some r |}.

Definition verdict_of_parsed_failure (r : string) : verdict := failure r.

Section Libraries.

(** The three library entry points, with the exceptions they raise:
    [bs58.decode], [nacl.sign.detached.verify(msg, sig, publicKey)] and
    ethers' [verifyMessage(message, signature)]. *)
Variable bs58_decode : string -> outcome (list byte).
Variable nacl_sign_detached_verify : list byte -> list byte -> list byte -> outcome bool.
Variable verifyMessage : string -> string -> outcome string.

Definition verifyPhantom (accountBase58 : string) (sigBytes : list byte)
    (nonce : string) : outcome verdict :=
  Js.try_catch
    (pub <- bs58_decode accountBase58 ;;
     okv <- nacl_sign_detached_verify (msgBytes nonce) sigBytes pub ;;
     Returned {| ok := okv; who := Some accountBase58; chain := Some "solana";
                 reason := None |})
    (fun _ => Returned (failure "phantom_verify_error")).

Definition verifyMetaMask (accountAddress : string) (sigBytes : list byte)
    (nonce : string) : outcome verdict :=
  Js.try_catch
    (let hexSig := "0x" +:+ Buffer.to_hex sigBytes in
     recovered <- verifyMessage ("x402-proof:" +:+ nonce) hexSig ;;
     let okv := JsString.toLowerCase recovered =? JsString.toLowerCase accountAddress in
     Returned {| ok := okv; who := Some recovered; chain := Some "evm";
                 reason := None |})
    (fun _ => Returned (failure "metamask_verify_error")).

Definition verifyProof (header : option string) : outcome verdict :=
  p <- parseProof header ;;
  match p with
  | ParseFail r => Returned (verdict_of_parsed_failure r)
  | ParseOk kind account nonce sigBytes =>
      if kind =? "phantom" then verifyPhantom account sigBytes nonce
      else if kind =? "metamask" then verifyMetaMask account sigBytes nonce
      else Returned (failure "unknown_kind")
  end.

End Libraries.

End Verify.

(** ** nonceStore.js *)

Module NonceStore.

Local Open Scope Z_scope.

(** A value of the map: [{ createdAt, expiresAt, used }]. *)
Record entry : Type := Entry {
  createdAt : Z;
  expiresAt : Z;
  used : bool
}.

(** The object: [this.ttl] and [this.map]. The interval timer of the
    constructor only schedules [gc]; calls of [gc] are explicit here. *)
Record t : Type := Store {
  ttl : Z;
  map : gmap string entry
}.

Definition create (ttlSeconds : Z) : t := {| ttl := ttlSeconds; map := ∅ |}.

(** [issue()]: [uuid] is what [uuidv4()] returns, [now] what [Date.now()]
    returns. *)
Definition issue (uuid : string) (now : Z) (s : t) : string * t :=
  (uuid,
   {| ttl := ttl s;
      map := <[uuid := {| createdAt := now;
                          expiresAt := now + ttl s * 1000;
                          used := false |}]> (map s) |}).

Definition exists_ (nonce : string) (s : t) : bool :=
  bool_decide (is_Some (map s !! nonce)).

Definition isExpired (nonce : string) (now : Z) (s : t) : bool :=
  match map s !! nonce with
  | None => true
  | Some e => now >? expiresAt e
  end.

Definition isUsed (nonce : string) (s : t) : bool :=
  match map s !! nonce with
  | None => true
  | Some e => used e
  end.

(** The object [verifyAndUse] returns: [{ ok: true }] or
    [{ ok: false, reason }]. *)
Inductive use_result : Type :=
| Accepted
| Refused (reason : string).

(** [e.used = true] *)
Definition mark_used (e : entry) : entry :=
  {| createdAt := createdAt e; expiresAt := expiresAt e; used := true |}.

Definition verifyAndUse (nonce : string) (now : Z) (s : t) : use_result * t :=
  match map s !! nonce with
  | None => (Refused "nonce_not_found", s)
  | Some e =>
      if now >? expiresAt e then (Refused "nonce_expired", s)
      else if used e then (Refused "nonce_replayed", s)
      else (Accepted, {| ttl := ttl s; map := <[nonce := mark_used e]> (map s) |})
  end.

(** The test of [gc] on one entry: [e.used || now > e.expiresAt + 60_000]. *)
Definition collectable (now : Z) (e : entry) : bool :=
  used e || (now >? expiresAt e + 60000).

Definition gc (now : Z) (s : t) : t :=
  {| ttl := ttl s;
     map := filter (fun kv => collectable now (snd kv) = false) (map s) |}.

End NonceStore.

(** ** Values of the parsed query string *)

Module Query.

(** A value of [req.query], as Express's query parser builds it (keys of
    [Object.prototype] allowed): a string, an array, or an object with
    string keys. *)
#[local] Set Warnings "-register-all".

Inductive value : Type :=
| Str (s : string)
| Arr (items : list value)
| Obj (fields : list (string * value)).

Definition has_own (key : string) (fields : list (string * value)) : bool :=
  existsb (fun kv => String.eqb (fst kv) key) fields.

(** [Array.prototype.join] with the separator [","], over the conversions
    of the elements, taken left to right. *)
Fixpoint join (parts : list (outcome string)) : outcome string :=
  match parts with
  | [] => Returned ""
  | [p] => p
  | p :: rest => a <- p ;; b <- join rest ;; Returned (a +:+ "," +:+ b)
  end.

(** The text of a value. [called = true] is the method call
    [v.toString()]; [called = false] is the conversion [join] applies to an
    element. A string is itself; an array joins its elements; an object
    answers ["[object Object]"] through [Object.prototype], unless it has
    a member named [toString] of its own: that member is a parsed value,
    not a function, so the method call is a [TypeError], and so is the
    conversion, which finds no callable [toString] and no primitive
    [valueOf]. *)
Fixpoint text (called : bool) (v : value) : outcome string :=
  match v with
  | Str s => Returned s
  | Arr items => join (List.map (text false) items)
  | Obj fields =>
      if has_own "toString" fields
      then Thrown (if called then "TypeError: toString is not a function"
                   else "TypeError: Cannot convert object to primitive value")
      else Returned "[object Object]"
  end.

(** [v.toString()] *)
Definition toString (v : value) : outcome string := text true v.

End Query.

(** ** The server: [send402] and [handlePremium] *)

Module Server.

Import Verify.

(** A price as configured; the arithmetic on it is floating point and is
    not part of the model. *)
Inductive number : Type := Number (text : string).

Record Config : Type := {
  TTL_SECONDS : Z;
  RECEIVER_SOL : string;
  RECEIVER_EVM : string;
  PRICE_SOL : number;
  PRICE_ETH : number;
  (** [BigInt(Math.floor(PRICE_ETH * 1e18)).toString(16)]: the digits, or
      the [RangeError] of [BigInt] when [PRICE_ETH] is not finite. *)
  PRICE_ETH_WEI_HEX : outcome string
}.

Record evm_tx : Type := { to : string; value : string; data : string }.

Record x402 : Type := {
  x_chain : string;
  receiver : string;
  amount : number;
  x_ttl : Z;
  x_nonce : string;
  evmTx : option evm_tx
}.

Inductive body : Type :=
| ErrorBody (error : string)
| ChallengeBody (payload : x402)
| PremiumBody (unlocked_who : option string) (unlocked_chain : option string)
    (timestamp : Z).

Record response : Type := { status : Z; json : body }.

(** What the handler reads of the request: [req.query.chain], absent or a
    parsed value, and [req.headers['x402-proof']], absent or a string. *)
Record request : Type := {
  query_chain : option Query.value;
  x402_proof : option string
}.

(** What the clock and the identifier generator answer during one request. *)
Record env : Type := { now : Z; uuid : string }.

(** Calls made on the shared [nonces] object, in order. *)
Inductive ledger_call : Type :=
| CallIssue (returned : string)
| CallVerifyAndUse (nonce : option string).

(** What a run of the handler does: the answer it sends, or the exception
    it ends with and then no answer; the store it leaves; the ledger calls
    it made. *)
Record result : Type := {
  reply : outcome response;
  store : NonceStore.t;
  calls : list ledger_call
}.

(** A run that throws before it has touched the ledger. *)
Definition thrown (err : string) (st : NonceStore.t) : result :=
  {| reply := Thrown err; store := st; calls := [] |}.

(** [m] evaluated with the ledger untouched so far: its value is passed on,
    its exception ends the run. *)
Definition attempt {A : Type} (m : outcome A) (st : NonceStore.t)
    (k : A -> result) : result :=
  match m with
  | Returned a => k a
  | Thrown e => thrown e st
  end.

(** [a || b] on strings: the empty string is falsy. *)
Definition or_else (a b : string) : string := if a =? "" then b else a.

Definition parsed_kind (p : parsed) : option string :=
  match p with
  | ParseOk kind _ _ _ => Some kind
  | ParseFail _ => None
  end.

Definition parsed_nonce (p : parsed) : option string :=
  match p with
  | ParseOk _ _ nonce _ => Some nonce
  | ParseFail _ => None
  end.

(** [nonces.verifyAndUse(v)] where [v] is the [nonce] property read off a
    parse result: a string, or [undefined] ([None]), which is the key of no
    entry. *)
Definition verifyAndUse_value (v : option string) (now : Z) (st : NonceStore.t)
  : NonceStore.use_result * NonceStore.t :=
  match v with
  | Some nonce => NonceStore.verifyAndUse nonce now st
  | None => (NonceStore.Refused "nonce_not_found", st)
  end.

(** [(req.query.chain || '').toString().toLowerCase()]: an absent value and
    the empty string both give [''], whose [toString] is itself. *)
Definition chainQuery (req : request) : outcome string :=
  text <- match query_chain req with
          | None => Returned ""
          | Some v => Query.toString v
          end ;;
  Returned (JsString.toLowerCase text).

(** The receiving account [send402] looks at for a chain. *)
Definition receiver_for (cfg : Config) (chain : string) : string :=
  if chain =? "evm" then RECEIVER_EVM cfg else RECEIVER_SOL cfg.

(** On the EVM chain the price has to convert to wei. *)
Definition price_converts (cfg : Config) (chain : string) : Prop :=
  chain = "evm" -> exists hex, PRICE_ETH_WEI_HEX cfg = Returned hex.

(** The entry [issue] records for the identifier of [w], in store [st]. *)
Definition issued_entry (w : env) (st : NonceStore.t) : NonceStore.entry :=
  {| NonceStore.createdAt := now w;
     NonceStore.expiresAt := (now w + NonceStore.ttl st * 1000)%Z;
     NonceStore.used := false |}.

(** A 402 answer whose payload carries [nonce]. *)
Definition is_challenge (r : response) (nonce : string) : Prop :=
  status r = 402%Z /\ exists payload, json r = ChallengeBody payload /\ x_nonce payload = nonce.

Section Gate.

Variable cfg : Config.
Variable bs58_decode : string -> outcome (list byte).
Variable nacl_sign_detached_verify : list byte -> list byte -> list byte -> outcome bool.
Variable verifyMessage : string -> string -> outcome string.

Definition send402 (w : env) (chain : string) (st : NonceStore.t) : result :=
  let '(nonce, st') := NonceStore.issue (uuid w) (now w) st in
  let answer :=
    if chain =? "evm" then
      if RECEIVER_EVM cfg =? "" then
        Returned {| status := 500%Z; json := ErrorBody "RECEIVER_EVM not set" |}
      else
        wei <- PRICE_ETH_WEI_HEX cfg ;;
        Returned
          {| status := 402%Z;
             json := ChallengeBody
               {| x_chain := "evm"; receiver := RECEIVER_EVM cfg;
                  amount := PRICE_ETH cfg; x_ttl := TTL_SECONDS cfg;
                  x_nonce := nonce;
                  evmTx := Some {| to := RECEIVER_EVM cfg;
                                   value := "0x" +:+ wei;
                                   data := "0x" |} |} |}
    else if RECEIVER_SOL cfg =? "" then
      Returned {| status := 500%Z; json := ErrorBody "RECEIVER_SOL not set" |}
    else
      Returned
        {| status := 402%Z;
           json := ChallengeBody
             {| x_chain := "solana"; receiver := RECEIVER_SOL cfg;
                amount := PRICE_SOL cfg; x_ttl := TTL_SECONDS cfg;
                x_nonce := nonce; evmTx := None |} |} in
  {| reply := answer; store := st'; calls := [CallIssue nonce] |}.

(** [handlePremium] from its first statement on. It is an [async] function:
    an exception ends the run and no answer is sent. *)
Definition handlePremium (w : env) (req : request) (st : NonceStore.t) : result :=
  attempt (chainQuery req) st (fun chainQuery =>
  let no_proof :=
    if chainQuery =? "evm" then send402 w "evm" st
    else if chainQuery =? "solana" then send402 w "solana" st
    else send402 w (if RECEIVER_SOL cfg =? "" then "evm" else "solana") st in
  match x402_proof req with
  | None => no_proof
  | Some "" => no_proof
  | Some provenHeader =>
      attempt (parseProof (Some provenHeader)) st (fun p =>
      if negb (parsed_ok p) then
        send402 w (or_else chainQuery "solana") st
      else
        attempt (verifyProof bs58_decode nacl_sign_detached_verify verifyMessage
                   (Some provenHeader)) st (fun verified =>
        if negb (ok verified) then
          send402 w
            (or_else chainQuery
               (if bool_decide (parsed_kind p = Some "metamask") then "evm" else "solana"))
            st
        else
          attempt (parseProof (Some provenHeader)) st (fun p' =>
          let nonce := parsed_nonce p' in
          match verifyAndUse_value nonce (now w) st with
          | (NonceStore.Refused r, st') =>
              {| reply := Returned {| status := 402%Z; json := ErrorBody r |};
                 store := st'; calls := [CallVerifyAndUse nonce] |}
          | (NonceStore.Accepted, st') =>
              {| reply := Returned {| status := 200%Z;
                                      json := PremiumBody (who verified) (chain verified)
                                                (now w) |};
                 store := st'; calls := [CallVerifyAndUse nonce] |}
          end)))
  end).

End Gate.

End Server.

(** ** The wording of the specification, stated on its own *)

Module Stated.

(** Letters that have a lower case among the code units 0..255: A-Z, and
    the accented capitals U+00C0..U+00DE without the multiplication sign. *)
Definition capital (n : N) : bool :=
  (((65 <=? n) && (n <=? 90)) || ((192 <=? n) && (n <=? 222) && negb (n =? 215)))%N.

(** Two characters that are the same letter, in whatever case. *)
Definition same_letter (c d : ascii) : bool :=
  let n := N_of_ascii c in
  let m := N_of_ascii d in
  ((n =? m) || (capital n && (m =? n + 32)) || (capital m && (n =? m + 32)))%N.

(** Equality under case-insensitive comparison: the same length, and the
    same letter at every position. *)
Fixpoint same_ignoring_case (a b : string) : bool :=
  match a, b with
  | EmptyString, EmptyString => true
  | String c a', String d b' => same_letter c d && same_ignoring_case a' b'
  | _, _ => false
  end.

(** The value of a lower-case hexadecimal digit. *)
Definition hex_value (c : ascii) : option N :=
  let n := N_of_ascii c in
  if ((48 <=? n) && (n <=? 57))%N then Some (n - 48)%N
  else if ((97 <=? n) && (n <=? 102))%N then Some (n - 87)%N
  else None.

(** The bytes a hex text stands for: two lower-case digits per byte, the
    high digit first. *)
Fixpoint unhex (s : string) : option (list byte) :=
  match s with
  | EmptyString => Some []
  | String h (String l rest) =>
      match hex_value h, hex_value l, unhex rest with
      | Some hv, Some lv, Some bs =>
          match Byte.of_N (16 * hv + lv) with
          | Some b => Some (b :: bs)
          | None => None
          end
      | _, _, _ => None
      end
  | String _ EmptyString => None
  end.

End Stated.

(** ** Histories of calls on one nonce store *)

Module Trace.

Import NonceStore.

Local Open Scope Z_scope.

Inductive op : Type :=
| Issue (uuid : string)
| VerifyAndUse (nonce : string)
| Gc.

(** A call together with the clock reading it sees; for [Issue] also the
    identifier the generator hands out. *)
Record event : Type := Event { at_time : Z; call : op }.

Inductive answer : Type :=
| Issued (nonce : string)
| Verified (r : use_result)
| Collected.

Definition step (s : t) (ev : event) : answer * t :=
  match call ev with
  | Issue u => let '(n, s') := issue u (at_time ev) s in (Issued n, s')
  | VerifyAndUse n => let '(r, s') := verifyAndUse n (at_time ev) s in (Verified r, s')
  | Gc => (Collected, gc (at_time ev) s)
  end.

(** The log of a history: every call with what it returned. *)
Fixpoint run (s : t) (evs : list event) : list (event * answer) :=
  match evs with
  | [] => []
  | ev :: rest => (ev, fst (step s ev)) :: run (snd (step s ev)) rest
  end.

(** The store a history leaves behind. *)
Fixpoint replay (s : t) (evs : list event) : t :=
  match evs with
  | [] => s
  | ev :: rest => replay (snd (step s ev)) rest
  end.

(** The identifiers the generator handed out, in order. *)
Fixpoint issued (evs : list event) : list string :=
  match evs with
  | [] => []
  | ev :: rest =>
      match call ev with
      | Issue u => u :: issued rest
      | _ => issued rest
      end
  end.

(** A log line that is a successful [verifyAndUse] of [nonce]. *)
Definition accepted (nonce : string) (line : event * answer) : bool :=
  match call (fst line), snd line with
  | VerifyAndUse n, Verified Accepted => String.eqb n nonce
  | _, _ => false
  end.

Definition acceptances (nonce : string) (log : list (event * answer)) : nat :=
  length (List.filter (accepted nonce) log).

(** [nonce] cannot be accepted in [s]: it has no entry, or a used one. *)
Definition spent (nonce : string) (s : t) : Prop :=
  forall e, map s !! nonce = Some e -> used e = true.

(** Every entry of [s] was issued in [hist], and expires [ttl0] seconds
    after that. *)
Definition dated (ttl0 : Z) (hist : list event) (s : t) : Prop :=
  ttl s = ttl0 /\
  forall n e, map s !! n = Some e ->
    exists j t0, hist !! j = Some (Event t0 (Issue n)) /\
                 expiresAt e = t0 + ttl0 * 1000.

End Trace.

(** ** Concrete configurations, library behaviours and requests *)

Module Scenario.

Import Verify Server.

Definition unconfigured : Config :=
  {| TTL_SECONDS := 300; RECEIVER_SOL := ""; RECEIVER_EVM := "";
     PRICE_SOL := Number "0.01"; PRICE_ETH := Number "0.0001";
     PRICE_ETH_WEI_HEX := Returned "5af3107a4000" |}.

Definition configured : Config :=
  {| TTL_SECONDS := 300;
     RECEIVER_SOL := "7xKXtg2CW87d97TXJSDpbD5jBkheTqA83TZRuJosgAsU";
     RECEIVER_EVM := "0x5B38Da6a701c568545dCfcB03FcB875f56beddC4";
     PRICE_SOL := Number "0.01"; PRICE_ETH := Number "0.0001";
     PRICE_ETH_WEI_HEX := Returned "5af3107a4000" |}.

(** The address of the secp256k1 private key 1. *)
Definition signer : string := "0x7E5F4552091A69125d5DfCb7b8C2659029395Bdf".

(** A genuine personal-message signature (r, s, v = 28) of that key over
    ["x402-proof:n-1"]. *)
Definition sig65 : list byte :=
  [xbb; x50; xe2; xd8; x9a; x4e; xd7; x06; x63; xd0; x80; x65; x9f; xe0; xad; x4b;
   x9b; xc3; xe0; x6c; x17; xa2; x27; x43; x39; x66; xcb; x59; xce; xee; x02; x0d;
   x2e; x3e; x33; x9d; x28; x01; x8d; x17; x90; xde; x14; x07; xe3; xec; xae; x60;
   xdb; x09; x60; xe1; xff; x26; x80; xbc; x7c; xe9; x1d; xa7; x98; x62; x39; xf1;
   x1c].

Definition sig65_hex : string :=
  "0xbb50e2d89a4ed70663d080659fe0ad4b9bc3e06c17a227433966cb59ceee020d2e3e339d28018d1790de1407e3ecae60db0960e1ff2680bc7ce91da7986239f11c".

(** The Ed25519 public key of the seed of thirty-two bytes 01, and its
    base58 text. *)
Definition sol_key : list byte :=
  [x8a; x88; xe3; xdd; x74; x09; xf1; x95; xfd; x52; xdb; x2d; x3c; xba; x5d; x72;
   xca; x67; x09; xbf; x1d; x94; x12; x1b; xf3; x74; x88; x01; xb4; x0f; x6f; x5c].

Definition sol_account : string := "AKnL4NNf3DGWZJS6cPknBuEGnVsV4A4m5tgebLHaRSZ9".

(** A genuine detached signature of that key over ["x402-proof:n-1"]. *)
Definition sig64 : list byte :=
  [x4e; xee; x64; x10; x10; xc5; x35; x82; x92; xa0; x16; x91; x2c; x63; xc0; xee;
   x34; xd7; xfb; xa0; xb5; x9f; xa6; xf3; xec; xed; xc3; xf3; x1f; xec; xd0; xc1;
   xd4; x2a; xd2; x1b; x4e; xf8; x25; x8d; xcd; xae; x36; xd8; xeb; x4f; x11; xc0;
   x24; x2c; xce; x02; x88; x2f; x04; x5e; xf1; x2a; xb0; xfb; xd8; x69; xa3; x03].

(** Sixty-four bytes that are no signature of anything under that key. *)
Definition sig64_wrong : list byte := repeat x07 64.

Definition same_bytes (a b : list byte) : bool :=
  bool_decide (List.map Byte.to_N a = List.map Byte.to_N b).

(** The three libraries, as they answer on the inputs used below. Off
    these inputs the stand-ins are not meant: [bs58_decoded] knows one
    account, [recovers_signer] one message and signature;
    [nacl_rejects] checks the two sizes as the library does and accepts
    the one genuine triple. *)
Definition bs58_decoded (account : string) : outcome (list byte) :=
  if account =? sol_account then Returned sol_key
  else Thrown "Non-base58 character".

Definition nacl_rejects (msg sig pub : list byte) : outcome bool :=
  if negb (length sig =? 64)%nat then Thrown "bad signature size"
  else if negb (length pub =? 32)%nat then Thrown "bad public key size"
  else Returned (same_bytes msg (msgBytes "n-1") && same_bytes sig sig64
                 && same_bytes pub sol_key).

Definition recovers_signer (message hexSig : string) : outcome string :=
  if (message =? "x402-proof:n-1") && (hexSig =? sig65_hex) then Returned signer
  else Thrown "invalid signature".

(** A proof whose claimed account is [signer] in lower case. *)
Definition good_header : string :=
  "metamask:0x7e5f4552091a69125d5dfcb7b8c2659029395bdf:n-1:" +:+ Buffer.base64 sig65.

(** The same signature under a claim of another account. *)
Definition other_account_header : string :=
  "metamask:0x5B38Da6a701c568545dCfcB03FcB875f56beddC4:n-1:" +:+ Buffer.base64 sig65.

(** A proof of the detached scheme, genuine, and one with a wrong
    signature. *)
Definition sol_header : string :=
  "phantom:" +:+ sol_account +:+ ":n-1:" +:+ Buffer.base64 sig64.

Definition sol_wrong_header : string :=
  "phantom:" +:+ sol_account +:+ ":n-1:" +:+ Buffer.base64 sig64_wrong.

Definition fresh_store : NonceStore.t := NonceStore.create 300.

(** [n-1] issued at time 1000, unused. *)
Definition store_with_n1 : NonceStore.t :=
  snd (NonceStore.issue "n-1" 1000 fresh_store).

(** [n-1] issued at time 1000 and consumed at time 2000. *)
Definition store_n1_used : NonceStore.t :=
  snd (NonceStore.verifyAndUse "n-1" 2000 store_with_n1).

(** One request: clock at 5000, the generator about to hand out [u-9]. *)
Definition at_5000 : env := {| now := 5000; uuid := "u-9" |}.

Definition request_with (header : string) : request :=
  {| query_chain := None; x402_proof := Some header |}.

Definition history : list Trace.event :=
  [ Trace.Event 1000 (Trace.Issue "n-1");
    Trace.Event 2000 (Trace.VerifyAndUse "n-1");
    Trace.Event 3000 (Trace.VerifyAndUse "n-1");
    Trace.Event 4000 Trace.Gc;
    Trace.Event 5000 (Trace.VerifyAndUse "n-1");
    Trace.Event 6000 (Trace.Issue "n-2");
    Trace.Event 400000 (Trace.VerifyAndUse "n-2") ].

End Scenario.

(** ** Bounded enumeration, for facts about 6-bit and 8-bit values *)

Module Bounded.

Fixpoint all_below (n : nat) (p : N -> bool) : bool :=
  match n with
  | O => true
  | S k => p (N.of_nat k) && all_below k p
  end.

End Bounded.

(** ** Counting separators, and further concrete cases *)

Module Fields.

(** How many times a character occurs in a string. *)
Fixpoint occurrences (c : ascii) (s : string) : nat :=
  match s with
  | EmptyString => O
  | String d rest => (if Ascii.eqb d c then 1 else 0) + occurrences c rest
  end.

End Fields.

Module Cases.

Import Verify Server.

(** A deployment that takes payment on EVM only. *)
Definition evm_only : Config :=
  {| TTL_SECONDS := 300;
     RECEIVER_SOL := "";
     RECEIVER_EVM := "0x5B38Da6a701c568545dCfcB03FcB875f56beddC4";
     PRICE_SOL := Number "0.01"; PRICE_ETH := Number "0.0001";
     PRICE_ETH_WEI_HEX := Returned "5af3107a4000" |}.

(** The same with a price that is not a number. *)
Definition evm_only_bad_price : Config :=
  {| TTL_SECONDS := 300;
     RECEIVER_SOL := "";
     RECEIVER_EVM := "0x5B38Da6a701c568545dCfcB03FcB875f56beddC4";
     PRICE_SOL := Number "0.01"; PRICE_ETH := Number "NaN";
     PRICE_ETH_WEI_HEX :=
       Thrown "RangeError: The number NaN cannot be converted to a BigInt" |}.

(** No proof header; the query gives [chain] this text, or nothing for the
    empty text. *)
Definition no_header (chain : string) : request :=
  {| query_chain := if chain =? "" then None else Some (Query.Str chain);
     x402_proof := None |}.

(** The query [?chain[toString]=x]. *)
Definition toString_query : Query.value :=
  Query.Obj [("toString", Query.Str "x")].

(** A later request: clock at 9000, the generator about to hand out [u-10]. *)
Definition at_9000 : env := {| now := 9000; uuid := "u-10" |}.

(** [n-1] issued at 1000, and the clock far past its expiry. *)
Definition expired_history : list Trace.event :=
  [ Trace.Event 500000 Trace.Gc;
    Trace.Event 500001 (Trace.VerifyAndUse "n-1");
    Trace.Event 600000 (Trace.Issue "n-3");
    Trace.Event 600001 (Trace.VerifyAndUse "n-1") ].

End Cases.

(** * Properties *)

(** ** Strings *)

Section SplitFacts.

Import JsString.

Lemma split_nonempty sep s : split sep s <> [].
Proof.
  destruct s as [|c rest]; simpl; [discriminate|].
  destruct (Ascii.eqb c sep); [discriminate|].
  destruct (split sep rest); discriminate.
Qed.

Lemma split_free sep s : mentions sep s = false -> split sep s = [s].
Proof.
  induction s as [|c rest IH]; simpl; [reflexivity|].
  intros H. apply orb_false_iff in H as [Hc Hrest].
  rewrite Hc, (IH Hrest). reflexivity.
Qed.

Lemma split_app_sep sep a rest :
  mentions sep a = false ->
  split sep (a +:+ String sep rest) = a :: split sep rest.
Proof.
  induction a as [|c a IH]; simpl; intros H.
  - rewrite Ascii.eqb_refl. reflexivity.
  - apply orb_false_iff in H as [Hc Ha].
    rewrite Hc, (IH Ha). reflexivity.
Qed.

Lemma mentions_app c a b : mentions c (a +:+ b) = mentions c a || mentions c b.
Proof.
  induction a as [|d a IH]; simpl; [reflexivity|].
  rewrite IH. apply orb_assoc.
Qed.

End SplitFacts.

(** ** base64 *)

Section Base64Facts.

Import Buffer Bounded.

Lemma all_below_spec n p :
  all_below n p = true -> forall x, (x < N.of_nat n)%N -> p x = true.
Proof.
  induction n as [|n IH]; simpl; intros H x Hx; [lia|].
  apply andb_true_iff in H as [Hn Hrest].
  destruct (N.eq_dec x (N.of_nat n)) as [->|Hne]; [exact Hn|].
  apply IH; [exact Hrest|lia].
Qed.

Lemma below_1 n (p : N -> bool) x :
  all_below n p = true -> (x < N.of_nat n)%N -> p x = true.
Proof. intros H. apply all_below_spec, H. Qed.

Lemma below_2 n m (p : N -> N -> bool) x y :
  all_below n (fun x => all_below m (p x)) = true ->
  (x < N.of_nat n)%N -> (y < N.of_nat m)%N -> p x y = true.
Proof.
  intros H Hx Hy.
  apply (all_below_spec m (p x)); [|exact Hy].
  apply (all_below_spec n (fun x => all_below m (p x))); assumption.
Qed.

Lemma below_3 n m k (p : N -> N -> N -> bool) x y z :
  all_below n (fun x => all_below m (fun y => all_below k (p x y))) = true ->
  (x < N.of_nat n)%N -> (y < N.of_nat m)%N -> (z < N.of_nat k)%N -> p x y z = true.
Proof.
  intros H Hx Hy Hz.
  apply (all_below_spec k (p x y)); [|exact Hz].
  apply (below_2 n m (fun x y => all_below k (p x y))); assumption.
Qed.

Ltac enumerated := first [vm_compute; reflexivity | simpl; lia].

Lemma byte_of_to_N b : byte_of_N (Byte.to_N b) = b.
Proof.
  unfold byte_of_N. pose proof (Byte.to_N_bounded b) as Hb.
  rewrite N.mod_small by lia. rewrite Byte.of_to_N. reflexivity.
Qed.

Lemma to_N_lt b : (Byte.to_N b < 256)%N.
Proof. pose proof (Byte.to_N_bounded b). lia. Qed.

(** A character of the alphabet decodes to its index, and is neither the
    padding character nor the field separator. *)
Lemma b64char_legal v :
  (v < 64)%N ->
  unbase64 (b64char v) = Some v /\
  Ascii.eqb (b64char v) "=" = false /\
  Ascii.eqb (b64char v) ":" = false.
Proof.
  intros Hv.
  pose proof (below_1 64
    (fun v => match unbase64 (b64char v) with
              | Some w => (w =? v)%N
              | None => false
              end
              && negb (Ascii.eqb (b64char v) "=")
              && negb (Ascii.eqb (b64char v) ":")) v) as H.
  cbv beta in H. specialize (H ltac:(enumerated) ltac:(enumerated)).
  apply andb_true_iff in H as [H H3]. apply andb_true_iff in H as [H1 H2].
  apply negb_true_iff in H2, H3.
  destruct (unbase64 (b64char v)) as [w|]; [|discriminate].
  apply N.eqb_eq in H1. subst w. auto.
Qed.

Lemma enc1_lt x : (x < 256)%N -> (enc1 x < 64)%N.
Proof.
  intros Hx. apply N.ltb_lt.
  apply (below_1 256 (fun x => (enc1 x <? 64)%N) x); enumerated.
Qed.

Lemma enc4_lt z : (z < 256)%N -> (enc4 z < 64)%N.
Proof.
  intros Hz. apply N.ltb_lt.
  apply (below_1 256 (fun z => (enc4 z <? 64)%N) z); enumerated.
Qed.

Lemma enc2_lt x y : (x < 256)%N -> (y < 256)%N -> (enc2 x y < 64)%N.
Proof.
  intros Hx Hy. apply N.ltb_lt.
  apply (below_2 256 256 (fun x y => (enc2 x y <? 64)%N) x y); enumerated.
Qed.

Lemma enc3_lt y z : (y < 256)%N -> (z < 256)%N -> (enc3 y z < 64)%N.
Proof.
  intros Hy Hz. apply N.ltb_lt.
  apply (below_2 256 256 (fun y z => (enc3 y z <? 64)%N) y z); enumerated.
Qed.

Lemma dec1_enc x y : (x < 256)%N -> (y < 256)%N -> dec1 (enc1 x) (enc2 x y) = x.
Proof.
  intros Hx Hy. apply N.eqb_eq.
  apply (below_2 256 256 (fun x y => (dec1 (enc1 x) (enc2 x y) =? x)%N) x y); enumerated.
Qed.

Lemma dec3_enc y z : (y < 256)%N -> (z < 256)%N -> dec3 (enc3 y z) (enc4 z) = z.
Proof.
  intros Hy Hz. apply N.eqb_eq.
  apply (below_2 256 256 (fun y z => (dec3 (enc3 y z) (enc4 z) =? z)%N) y z); enumerated.
Qed.

(** The middle byte depends on [x] only through its two low bits and on [z]
    only through its two high bits. *)
Lemma dec2_bits p y q :
  (p < 4)%N -> (y < 256)%N -> (q < 4)%N ->
  dec2 (N.lor (N.shiftl p 4) (N.shiftr y 4)) (N.lor (N.shiftl (N.land y 15) 2) q) = y.
Proof.
  intros Hp Hy Hq. apply N.eqb_eq.
  apply (below_3 4 256 4
    (fun p y q => (dec2 (N.lor (N.shiftl p 4) (N.shiftr y 4))
                        (N.lor (N.shiftl (N.land y 15) 2) q) =? y)%N) p y q); enumerated.
Qed.

Lemma low2_lt x : (x < 256)%N -> (N.land x 3 < 4)%N.
Proof.
  intros Hx. apply N.ltb_lt.
  apply (below_1 256 (fun x => (N.land x 3 <? 4)%N) x); enumerated.
Qed.

Lemma high2_lt z : (z < 256)%N -> (N.shiftr z 6 < 4)%N.
Proof.
  intros Hz. apply N.ltb_lt.
  apply (below_1 256 (fun z => (N.shiftr z 6 <? 4)%N) z); enumerated.
Qed.

Lemma dec2_enc x y z :
  (x < 256)%N -> (y < 256)%N -> (z < 256)%N -> dec2 (enc2 x y) (enc3 y z) = y.
Proof.
  intros Hx Hy Hz. unfold enc2, enc3.
  apply dec2_bits; auto using low2_lt, high2_lt.
Qed.

Lemma legal_sextets_char v s :
  (v < 64)%N -> legal_sextets (String (b64char v) s) = v :: legal_sextets s.
Proof.
  intros Hv. destruct (b64char_legal v Hv) as (Hu & Hpad & _).
  cbn [legal_sextets]. rewrite Hpad, Hu. reflexivity.
Qed.

Lemma legal_sextets_pad s : legal_sextets (String "=" s) = [].
Proof. reflexivity. Qed.

Lemma list_ind3 {A : Type} (P : list A -> Prop) :
  P [] -> (forall a, P [a]) -> (forall a b, P [a; b]) ->
  (forall a b c l, P l -> P (a :: b :: c :: l)) ->
  forall l, P l.
Proof.
  intros H0 H1 H2 H3.
  fix IH 1. intros [|a [|b [|c l]]].
  - exact H0.
  - apply H1.
  - apply H2.
  - apply H3, IH.
Qed.

(** Decoding what the standard encoder produced gives the bytes back. *)
Lemma from_base64_base64 bs : from_base64 (base64 bs) = Returned bs.
Proof.
  unfold from_base64. f_equal.
  induction bs as [|a|a b|a b c l IH] using list_ind3.
  - reflexivity.
  - cbn [base64].
    pose proof (to_N_lt a) as Ha.
    rewrite !legal_sextets_char, legal_sextets_pad
      by auto using enc1_lt, enc2_lt with lia.
    cbn [bytes_of_sextets]. rewrite dec1_enc by lia.
    rewrite byte_of_to_N. reflexivity.
  - cbn [base64].
    pose proof (to_N_lt a) as Ha. pose proof (to_N_lt b) as Hb.
    rewrite !legal_sextets_char, legal_sextets_pad
      by auto using enc1_lt, enc2_lt, enc3_lt with lia.
    cbn [bytes_of_sextets]. rewrite dec1_enc, dec2_enc by lia.
    rewrite !byte_of_to_N. reflexivity.
  - cbn [base64].
    pose proof (to_N_lt a) as Ha. pose proof (to_N_lt b) as Hb.
    pose proof (to_N_lt c) as Hc.
    rewrite !legal_sextets_char
      by auto using enc1_lt, enc2_lt, enc3_lt, enc4_lt with lia.
    cbn [bytes_of_sextets]. rewrite dec1_enc, dec2_enc, dec3_enc by lia.
    rewrite !byte_of_to_N, IH. reflexivity.
Qed.

Lemma base64_colon_free bs : JsString.mentions ":" (base64 bs) = false.
Proof.
  assert (forall v s, (v < 64)%N ->
            JsString.mentions ":" (String (b64char v) s) = JsString.mentions ":" s) as Hstep.
  { intros v s Hv. destruct (b64char_legal v Hv) as (_ & _ & Hc).
    cbn [JsString.mentions]. rewrite Hc. reflexivity. }
  induction bs as [|a|a b|a b c l IH] using list_ind3.
  - reflexivity.
  - cbn [base64]. pose proof (to_N_lt a).
    rewrite !Hstep by auto using enc1_lt, enc2_lt with lia. reflexivity.
  - cbn [base64]. pose proof (to_N_lt a). pose proof (to_N_lt b).
    rewrite !Hstep by auto using enc1_lt, enc2_lt, enc3_lt with lia. reflexivity.
  - cbn [base64]. pose proof (to_N_lt a). pose proof (to_N_lt b). pose proof (to_N_lt c).
    rewrite !Hstep by auto using enc1_lt, enc2_lt, enc3_lt, enc4_lt with lia.
    exact IH.
Qed.

End Base64Facts.

(** ** The proof codec *)

Section Codec.

Import Verify JsString.

Lemma parseProof_four kind account nonce b64sig h :
  h <> "" ->
  split ":" h = [kind; account; nonce; b64sig] ->
  parseProof (Some h) =
    if negb (kind =? "phantom") && negb (kind =? "metamask")
    then Returned (ParseFail "bad_kind")
    else Returned (ParseOk kind account nonce
                     (Buffer.bytes_of_sextets (Buffer.legal_sextets b64sig))).
Proof.
  intros Hne Hsplit. unfold parseProof.
  destruct h as [|c h']; [congruence|].
  rewrite Hsplit.
  destruct (negb (kind =? "phantom") && negb (kind =? "metamask")); reflexivity.
Qed.

Lemma parseProof_not_four h :
  h <> "" -> length (split ":" h) <> 4%nat ->
  parseProof (Some h) = Returned (ParseFail "bad_format").
Proof.
  intros Hne Hlen. unfold parseProof.
  destruct h as [|c h']; [congruence|].
  destruct (split ":" (String c h')) as [|s1 [|s2 [|s3 [|s4 [|s5 l]]]]];
    try reflexivity.
  simpl in Hlen. congruence.
Qed.

(** The [catch] of [parseProof] is never entered. *)
Lemma parseProof_never_bad_b64 header :
  parseProof header <> Returned (ParseFail "bad_b64").
Proof.
  unfold parseProof. destruct header as [[|c h]|]; try discriminate.
  destruct (split ":" (String c h)) as [|s1 [|s2 [|s3 [|s4 [|s5 l]]]]];
    try discriminate.
  destruct (negb (s1 =? "phantom") && negb (s1 =? "metamask")); discriminate.
Qed.

(** [parseProof] returns on every argument. *)
Lemma parseProof_returns header :
  exists p, parseProof header = Returned p /\
    match p with
    | ParseFail r => r = "missing_header" \/ r = "bad_format" \/ r = "bad_kind"
    | ParseOk kind _ _ _ => kind = "phantom" \/ kind = "metamask"
    end.
Proof.
  assert (forall r, r = "missing_header" \/ r = "bad_format" \/ r = "bad_kind" ->
            exists p, Returned (ParseFail r) = Returned p /\
              match p with
              | ParseFail r => r = "missing_header" \/ r = "bad_format" \/ r = "bad_kind"
              | ParseOk kind _ _ _ => kind = "phantom" \/ kind = "metamask"
              end) as Hfail.
  { intros r Hr. exists (ParseFail r). split; [reflexivity | exact Hr]. }
  unfold parseProof. destruct header as [[|c h]|]; [apply Hfail; tauto | | apply Hfail; tauto].
  destruct (JsString.split ":" (String c h)) as [|s1 [|s2 [|s3 [|s4 [|s5 l]]]]];
    try (apply Hfail; tauto).
  destruct (s1 =? "phantom") eqn:Hp; simpl.
  - apply String.eqb_eq in Hp. eexists. split; [reflexivity|]. simpl. tauto.
  - destruct (s1 =? "metamask") eqn:Hm; simpl; [|apply Hfail; tauto].
    apply String.eqb_eq in Hm. eexists. split; [reflexivity|]. simpl. tauto.
Qed.

(** C6, as amended. A string header that is not empty fails with
    [bad_format] exactly when splitting it on [":"] does not give four
    segments. With four segments nothing depends on a segment being empty:
    the kind decides between [bad_kind] and success, and account, nonce and
    signature text are taken as they are. *)
Theorem parseProof_bad_format_iff h :
  h <> "" ->
  (parseProof (Some h) = Returned (ParseFail "bad_format")
     <-> length (split ":" h) <> 4%nat) /\
  (forall kind account nonce b64sig,
     split ":" h = [kind; account; nonce; b64sig] ->
     (kind = "phantom" \/ kind = "metamask") ->
     exists sigBytes,
       Buffer.from_base64 b64sig = Returned sigBytes /\
       parseProof (Some h) = Returned (ParseOk kind account nonce sigBytes)).
Proof.
  intros Hne. split.
  - split.
    + intros Hbad Hlen.
      destruct (split ":" h) as [|s1 [|s2 [|s3 [|s4 [|s5 l]]]]] eqn:Hs;
        simpl in Hlen; try congruence.
      rewrite (parseProof_four s1 s2 s3 s4 h Hne Hs) in Hbad.
      destruct (negb (s1 =? "phantom") && negb (s1 =? "metamask")); discriminate.
    + apply parseProof_not_four, Hne.
  - intros kind account nonce b64sig Hs Hkind.
    eexists. split; [reflexivity|].
    rewrite (parseProof_four kind account nonce b64sig h Hne Hs).
    destruct Hkind as [-> | ->]; reflexivity.
Qed.

Lemma parseProof_bad_format_iff_witness :
  let h := "metamask:0xabc::" in
  h <> "" /\
  (parseProof (Some h) = Returned (ParseFail "bad_format")
     <-> length (split ":" h) <> 4%nat) /\
  parseProof (Some h) = Returned (ParseOk "metamask" "0xabc" "" []).
Proof.
  intros h. split; [discriminate|].
  destruct (parseProof_bad_format_iff h ltac:(discriminate)) as [Hiff Hfour].
  split; [exact Hiff|].
  destruct (Hfour "metamask" "0xabc" "" "" eq_refl (or_intror eq_refl))
    as (sigBytes & Hdec & Hparse).
  injection Hdec as <-. exact Hparse.
Defined.

(** C6, as stated, fails: a header with an empty account between two colons
    has an empty segment and is parsed successfully. *)
Lemma parseProof_accepts_empty_account :
  split ":" "phantom::n-1:AAAA" = ["phantom"; ""; "n-1"; "AAAA"] /\
  parseProof (Some "phantom::n-1:AAAA")
    = Returned (ParseOk "phantom" "" "n-1" [x00; x00; x00]) /\
  parseProof (Some "phantom::n-1:AAAA") <> Returned (ParseFail "bad_format").
Proof. split; [reflexivity|]. split; [reflexivity | discriminate]. Qed.

(** C7 at a failing input: the fourth segment ["!!!!"] holds no base64
    character at all, and [parseProof] succeeds with no signature bytes
    where [bad_b64] is called for. *)
Theorem parseProof_invalid_base64_accepted :
  Buffer.from_base64 "!!!!" = Returned [] /\
  parseProof (Some "phantom:acct:n-1:!!!!")
    = Returned (ParseOk "phantom" "acct" "n-1" []).
Proof. split; reflexivity. Qed.

(** C9. A header built from a registered kind, a colon-free account, a
    colon-free nonce and the standard base64 text of a signature parses
    back to these four fields, the signature as the original bytes.
    (That account and nonce are not empty is not needed.) *)
Theorem parseProof_roundtrip kind account nonce sigBytes :
  kind = "phantom" \/ kind = "metamask" ->
  mentions ":" account = false ->
  mentions ":" nonce = false ->
  parseProof
    (Some (kind +:+ ":" +:+ account +:+ ":" +:+ nonce +:+ ":" +:+ Buffer.base64 sigBytes))
  = Returned (ParseOk kind account nonce sigBytes).
Proof.
  intros Hkind Hacc Hnonce.
  set (h := kind +:+ ":" +:+ account +:+ ":" +:+ nonce +:+ ":" +:+ Buffer.base64 sigBytes).
  assert (mentions ":" kind = false) as Hk
    by (destruct Hkind as [-> | ->]; reflexivity).
  assert (split ":" h = [kind; account; nonce; Buffer.base64 sigBytes]) as Hsplit.
  { unfold h.
    repeat match goal with
           | |- context [":" +:+ ?x] => change (":" +:+ x) with (String ":" x)
           end.
    rewrite (split_app_sep ":" kind) by exact Hk.
    rewrite (split_app_sep ":" account) by exact Hacc.
    rewrite (split_app_sep ":" nonce) by exact Hnonce.
    rewrite (split_free ":" (Buffer.base64 sigBytes)) by apply base64_colon_free.
    reflexivity. }
  assert (h <> "") as Hne
    by (unfold h; destruct Hkind as [-> | ->]; discriminate).
  rewrite (parseProof_four _ _ _ _ h Hne Hsplit).
  pose proof (from_base64_base64 sigBytes) as Hrt.
  unfold Buffer.from_base64 in Hrt. injection Hrt as ->.
  destruct Hkind as [-> | ->]; reflexivity.
Qed.

Lemma parseProof_roundtrip_witness :
  parseProof (Some ("phantom:acct:n-1:" +:+ Buffer.base64 [xde; xad; xbe; xef]))
  = Returned (ParseOk "phantom" "acct" "n-1" [xde; xad; xbe; xef]).
Proof.
  exact (parseProof_roundtrip "phantom" "acct" "n-1" [xde; xad; xbe; xef]
           (or_introl eq_refl) eq_refl eq_refl).
Defined.

End Codec.

(** ** The nonce ledger *)

Section Ledger.

Import NonceStore.

Local Open Scope Z_scope.

(** C2. [verifyAndUse] tests, in this order: no entry, then expiry, then
    the used flag; only when all three pass does it set the flag. A refusal
    leaves the store as it was. *)
Theorem verifyAndUse_cases (nonce : string) (now : Z) (s : t) :
  (map s !! nonce = None ->
     verifyAndUse nonce now s = (Refused "nonce_not_found", s)) /\
  (forall e, map s !! nonce = Some e -> now > expiresAt e ->
     verifyAndUse nonce now s = (Refused "nonce_expired", s)) /\
  (forall e, map s !! nonce = Some e -> now <= expiresAt e -> used e = true ->
     verifyAndUse nonce now s = (Refused "nonce_replayed", s)) /\
  (forall e, map s !! nonce = Some e -> now <= expiresAt e -> used e = false ->
     verifyAndUse nonce now s =
       (Accepted, {| ttl := ttl s; map := <[nonce := mark_used e]> (map s) |})).
Proof.
  unfold verifyAndUse. repeat split.
  - intros ->. reflexivity.
  - intros e -> Hexp.
    destruct (Z.gtb_spec now (expiresAt e)); [reflexivity | lia].
  - intros e -> Hexp Hused.
    destruct (Z.gtb_spec now (expiresAt e)); [lia|].
    rewrite Hused. reflexivity.
  - intros e -> Hexp Hused.
    destruct (Z.gtb_spec now (expiresAt e)); [lia|].
    rewrite Hused. reflexivity.
Qed.

Lemma verifyAndUse_cases_witness :
  verifyAndUse "n-0" 2000 Scenario.store_with_n1
    = (Refused "nonce_not_found", Scenario.store_with_n1) /\
  verifyAndUse "n-1" 400000 Scenario.store_n1_used
    = (Refused "nonce_expired", Scenario.store_n1_used) /\
  verifyAndUse "n-1" 3000 Scenario.store_n1_used
    = (Refused "nonce_replayed", Scenario.store_n1_used) /\
  fst (verifyAndUse "n-1" 2000 Scenario.store_with_n1) = Accepted.
Proof.
  pose (e0 := {| createdAt := 1000; expiresAt := 301000; used := false |}).
  destruct (verifyAndUse_cases "n-0" 2000 Scenario.store_with_n1) as (H1 & _).
  destruct (verifyAndUse_cases "n-1" 400000 Scenario.store_n1_used) as (_ & H2 & _).
  destruct (verifyAndUse_cases "n-1" 3000 Scenario.store_n1_used) as (_ & _ & H3 & _).
  destruct (verifyAndUse_cases "n-1" 2000 Scenario.store_with_n1) as (_ & _ & _ & H4).
  split; [apply H1; reflexivity|].
  split; [apply (H2 (mark_used e0)); [reflexivity | simpl; lia]|].
  split; [apply (H3 (mark_used e0)); [reflexivity | simpl; lia | reflexivity]|].
  rewrite (H4 e0); [reflexivity | reflexivity | simpl; lia | reflexivity].
Defined.

End Ledger.

(** ** Histories: consumed at most once, never after expiry *)

Section History.

Import NonceStore Trace.

Local Open Scope Z_scope.

Lemma verifyAndUse_accepted nonce now s :
  fst (verifyAndUse nonce now s) = Accepted ->
  exists e, map s !! nonce = Some e /\ now <= expiresAt e /\ used e = false /\
            snd (verifyAndUse nonce now s)
              = {| ttl := ttl s; map := <[nonce := mark_used e]> (map s) |}.
Proof.
  unfold verifyAndUse. destruct (map s !! nonce) as [e|]; [|discriminate].
  destruct (Z.gtb_spec now (expiresAt e)); [discriminate|].
  destruct (used e) eqn:Hu; [discriminate|].
  intros _. exists e. repeat split; try reflexivity; try assumption.
Qed.

Lemma verifyAndUse_refused_same nonce now s r :
  fst (verifyAndUse nonce now s) = Refused r -> snd (verifyAndUse nonce now s) = s.
Proof.
  unfold verifyAndUse. destruct (map s !! nonce) as [e|]; [|reflexivity].
  destruct (now >? expiresAt e); [reflexivity|].
  destruct (used e); [reflexivity | discriminate].
Qed.

Lemma verifyAndUse_ttl nonce now s : ttl (snd (verifyAndUse nonce now s)) = ttl s.
Proof.
  unfold verifyAndUse. destruct (map s !! nonce) as [e|]; [|reflexivity].
  destruct (now >? expiresAt e); [reflexivity|].
  destruct (used e); reflexivity.
Qed.

(** What [verifyAndUse] does to the entry of any nonce: nothing, or it sets
    the used flag. *)
Lemma verifyAndUse_lookup nonce now s n e' :
  map (snd (verifyAndUse nonce now s)) !! n = Some e' ->
  map s !! n = Some e' \/
  (n = nonce /\ exists e, map s !! n = Some e /\ e' = mark_used e).
Proof.
  unfold verifyAndUse. destruct (map s !! nonce) as [e|] eqn:He; [|auto].
  destruct (now >? expiresAt e); [auto|].
  destruct (used e); [auto|].
  simpl. destruct (decide (nonce = n)) as [->|Hne].
  - rewrite lookup_insert_eq. intros [= <-]. right. eauto.
  - rewrite lookup_insert_ne by exact Hne. auto.
Qed.

Lemma gc_lookup now s n e :
  map (gc now s) !! n = Some e -> map s !! n = Some e.
Proof.
  unfold gc. simpl. intros H.
  apply map_lookup_filter_Some in H as [H _]. exact H.
Qed.

Lemma spent_step n s ev :
  spent n s -> call ev <> Issue n -> spent n (snd (step s ev)).
Proof.
  intros Hsp Hcall e. unfold step.
  destruct (call ev) as [u|m|] eqn:Hc; simpl.
  - rewrite lookup_insert_ne by congruence. apply Hsp.
  - destruct (verifyAndUse m (at_time ev) s) as [r s'] eqn:Hv.
    simpl. intros He.
    replace s' with (snd (verifyAndUse m (at_time ev) s)) in He by (rewrite Hv; reflexivity).
    apply verifyAndUse_lookup in He as [He | (_ & e0 & _ & ->)].
    + apply (Hsp e He).
    + reflexivity.
  - intros He. apply gc_lookup in He. apply (Hsp e He).
Qed.

Lemma spent_refuses n now s :
  spent n s -> fst (verifyAndUse n now s) <> Accepted.
Proof.
  intros Hsp Hacc.
  apply verifyAndUse_accepted in Hacc as (e & He & _ & Hu & _).
  rewrite (Hsp e He) in Hu. discriminate.
Qed.

Lemma accepted_spent n now s :
  fst (verifyAndUse n now s) = Accepted -> spent n (snd (verifyAndUse n now s)).
Proof.
  intros Hacc. apply verifyAndUse_accepted in Hacc as (e & _ & _ & _ & ->).
  intros e'. simpl. rewrite lookup_insert_eq. intros [= <-]. reflexivity.
Qed.

Lemma accepted_step n s ev :
  accepted n (ev, fst (step s ev)) = true <->
  call ev = VerifyAndUse n /\ fst (verifyAndUse n (at_time ev) s) = Accepted.
Proof.
  unfold accepted, step. simpl.
  destruct (call ev) as [u|m|]; simpl.
  - split; [discriminate | intros [[=] _]].
  - destruct (verifyAndUse m (at_time ev) s) as [r s'] eqn:Hv. simpl.
    split.
    + destruct r; [|discriminate]. intros H. apply String.eqb_eq in H. subst m.
      rewrite Hv. auto.
    + intros [[= ->] H]. rewrite Hv in H. simpl in H. subst r.
      apply String.eqb_refl.
  - split; [discriminate | intros [[=] _]].
Qed.

Lemma acceptances_cons n line log :
  acceptances n (line :: log)
  = ((if accepted n line then 1 else 0) + acceptances n log)%nat.
Proof. unfold acceptances. simpl. destruct (accepted n line); reflexivity. Qed.

Lemma not_issued_cons n ev rest :
  n ∉ issued (ev :: rest) -> call ev <> Issue n /\ n ∉ issued rest.
Proof.
  simpl. destruct (call ev) as [u|m|]; intros H.
  - apply not_elem_of_cons in H as [Hne H]. split; [congruence | exact H].
  - split; [discriminate | exact H].
  - split; [discriminate | exact H].
Qed.

(** A spent nonce that is not issued again is never accepted. *)
Lemma spent_never_accepted n evs :
  forall s, spent n s -> n ∉ issued evs -> acceptances n (run s evs) = 0%nat.
Proof.
  induction evs as [|ev rest IH]; intros s Hsp Hni; [reflexivity|].
  apply not_issued_cons in Hni as [Hcall Hni].
  cbn [run]. rewrite acceptances_cons.
  rewrite (IH _ (spent_step n s ev Hsp Hcall) Hni).
  destruct (accepted n (ev, fst (step s ev))) eqn:Hacc; [|reflexivity].
  apply accepted_step in Hacc as [_ Hacc].
  destruct (spent_refuses n (at_time ev) s Hsp Hacc).
Qed.

Lemma step_verify n s ev :
  call ev = VerifyAndUse n -> snd (step s ev) = snd (verifyAndUse n (at_time ev) s).
Proof.
  intros Hc. unfold step. rewrite Hc.
  destruct (verifyAndUse n (at_time ev) s); reflexivity.
Qed.

(** Whatever the store, a nonce that is not issued again is accepted at
    most once. *)
Lemma not_reissued_once n evs :
  forall s, n ∉ issued evs -> (acceptances n (run s evs) <= 1)%nat.
Proof.
  induction evs as [|ev rest IH]; intros s Hni; [unfold acceptances; simpl; lia|].
  pose proof Hni as Hni0.
  apply not_issued_cons in Hni as [Hcall Hni].
  cbn [run]. rewrite acceptances_cons.
  destruct (accepted n (ev, fst (step s ev))) eqn:Hacc.
  - apply accepted_step in Hacc as [Hc Hacc].
    rewrite (step_verify n s ev Hc).
    rewrite (spent_never_accepted n rest _ (accepted_spent n _ s Hacc) Hni). lia.
  - specialize (IH (snd (step s ev)) Hni). lia.
Qed.

Lemma NoDup_issued_cons ev rest :
  NoDup (issued (ev :: rest)) -> NoDup (issued rest).
Proof.
  simpl. destruct (call ev); [|auto|auto].
  intros H. apply NoDup_cons in H as [_ H]. exact H.
Qed.

Lemma spent_once n evs :
  forall s, NoDup (issued evs) -> spent n s -> (acceptances n (run s evs) <= 1)%nat.
Proof.
  induction evs as [|ev rest IH]; intros s Hnd Hsp; [unfold acceptances; simpl; lia|].
  cbn [run]. rewrite acceptances_cons.
  destruct (accepted n (ev, fst (step s ev))) eqn:Hacc.
  { apply accepted_step in Hacc as [_ Hacc].
    destruct (spent_refuses n (at_time ev) s Hsp Hacc). }
  assert (call ev <> Issue n ->
          (0 + acceptances n (run (snd (step s ev)) rest) <= 1)%nat) as Hother.
  { intros Hc.
    pose proof (IH _ (NoDup_issued_cons ev rest Hnd) (spent_step n s ev Hsp Hc)). lia. }
  destruct (call ev) as [u|m|] eqn:Hc; [|apply Hother; discriminate ..].
  destruct (decide (u = n)) as [->|Hne]; [|apply Hother; congruence].
  assert (n ∉ issued rest) as Hni.
  { simpl in Hnd. rewrite Hc in Hnd. apply NoDup_cons in Hnd as [Hni _]. exact Hni. }
  pose proof (not_reissued_once n rest (snd (step s ev)) Hni). lia.
Qed.

Lemma run_lookup evs :
  forall s i ev a,
    run s evs !! i = Some (ev, a) ->
    evs !! i = Some ev /\ a = fst (step (replay s (take i evs)) ev).
Proof.
  induction evs as [|ev0 rest IH]; intros s i ev a H; [destruct i; discriminate|].
  destruct i as [|i]; simpl in H.
  - injection H as <- <-. auto.
  - apply IH in H as [H1 H2]. auto.
Qed.

Lemma replay_snoc evs :
  forall s ev, replay s (evs ++ [ev]) = snd (step (replay s evs) ev).
Proof.
  induction evs as [|ev0 rest IH]; intros s ev; [reflexivity|].
  simpl. apply IH.
Qed.

Lemma dated_step ttl0 hist s ev :
  dated ttl0 hist s -> dated ttl0 (hist ++ [ev]) (snd (step s ev)).
Proof.
  intros [Httl Hd].
  assert (forall (n : string) (e : entry), map s !! n = Some e ->
            exists (j : nat) (t0 : Z),
              (hist ++ [ev])%list !! j = Some (Event t0 (Issue n)) /\
                         expiresAt e = t0 + ttl0 * 1000) as Hold.
  { intros n e He. destruct (Hd n e He) as (j & t0 & Hj & Hexp).
    exists j, t0. split; [|exact Hexp].
    apply lookup_app_l_Some, Hj. }
  destruct ev as [now c]. unfold step. simpl.
  destruct c as [u|m|]; simpl.
  - split; [exact Httl|]. intros n e. simpl.
    destruct (decide (u = n)) as [->|Hne].
    + rewrite lookup_insert_eq. intros [= <-]. simpl.
      exists (length hist), now. split.
      * rewrite lookup_app_r by lia. rewrite Nat.sub_diag. reflexivity.
      * rewrite Httl. reflexivity.
    + rewrite lookup_insert_ne by exact Hne. apply Hold.
  - destruct (verifyAndUse m now s) as [r s'] eqn:Hv. simpl.
    assert (s' = snd (verifyAndUse m now s)) as -> by (rewrite Hv; reflexivity).
    split; [rewrite verifyAndUse_ttl; exact Httl|].
    intros n e He.
    apply verifyAndUse_lookup in He as [He | (_ & e0 & He0 & ->)].
    + apply (Hold n e He).
    + apply (Hold n e0 He0).
  - split; [exact Httl|]. intros n e He. apply gc_lookup in He. apply (Hold n e He).
Qed.

Lemma dated_replay ttl0 pre : dated ttl0 pre (replay (create ttl0) pre).
Proof.
  induction pre as [|ev pre IH] using rev_ind.
  - split; [reflexivity|]. intros n e. simpl. rewrite lookup_empty. discriminate.
  - rewrite replay_snoc. apply dated_step, IH.
Qed.

Lemma issue_listed t0 n evs : In (Event t0 (Issue n)) evs -> n ∈ issued evs.
Proof.
  induction evs as [|ev rest IH]; simpl; [tauto|].
  intros [-> | Hin].
  - simpl. apply list_elem_of_here.
  - specialize (IH Hin). destruct (call ev); [apply list_elem_of_further|..]; exact IH.
Qed.

(** With identifiers handed out once, a nonce has one issue time. *)
Lemma issue_time_unique evs :
  forall j t0 t0' n,
    NoDup (issued evs) ->
    evs !! j = Some (Event t0 (Issue n)) ->
    In (Event t0' (Issue n)) evs ->
    t0' = t0.
Proof.
  induction evs as [|ev rest IH]; intros j t0 t0' n Hnd Hj Hin; [destruct Hin|].
  destruct j as [|j]; simpl in Hj.
  - injection Hj as ->. destruct Hin as [[= ->] | Hin]; [reflexivity|].
    simpl in Hnd. apply NoDup_cons in Hnd as [Hni _].
    destruct (Hni (issue_listed _ _ _ Hin)).
  - destruct Hin as [-> | Hin].
    + simpl in Hnd. apply NoDup_cons in Hnd as [Hni _].
      destruct Hni. apply (issue_listed t0). apply list_elem_of_In.
      apply list_elem_of_lookup. eauto.
    + apply (IH j t0 t0' n (NoDup_issued_cons ev rest Hnd) Hj Hin).
Qed.

(** C3. Over every history of [issue], [verifyAndUse] and [gc] calls on a
    new store in which the generator hands out each identifier once: a
    nonce is accepted at most once, and every acceptance of it comes after
    its issue and not later than its expiry timestamp, issue time plus TTL. *)
Theorem nonce_consumed_once_before_expiry ttl0 evs nonce :
  NoDup (issued evs) ->
  (acceptances nonce (run (create ttl0) evs) <= 1)%nat /\
  forall i ev,
    run (create ttl0) evs !! i = Some (ev, Verified Accepted) ->
    call ev = VerifyAndUse nonce ->
    (exists j t0, (j < i)%nat /\ evs !! j = Some (Event t0 (Issue nonce))) /\
    (forall t0, In (Event t0 (Issue nonce)) evs -> at_time ev <= t0 + ttl0 * 1000).
Proof.
  intros Hnd. split.
  - apply spent_once; [exact Hnd|].
    intros e. simpl. rewrite lookup_empty. discriminate.
  - intros i ev Hline Hcall.
    apply run_lookup in Hline as [Hev Hans].
    set (s := replay (create ttl0) (take i evs)) in *.
    assert (fst (verifyAndUse nonce (at_time ev) s) = Accepted) as Hacc.
    { unfold step in Hans. rewrite Hcall in Hans.
      destruct (verifyAndUse nonce (at_time ev) s) as [r s']. simpl in *. congruence. }
    apply verifyAndUse_accepted in Hacc as (e & He & Hle & _ & _).
    destruct (dated_replay ttl0 (take i evs)) as [_ Hd].
    destruct (Hd nonce e He) as (j & t0 & Hj & Hexp).
    apply lookup_take_Some in Hj as [Hj Hlt].
    split; [eauto|].
    intros t0' Hin.
    rewrite (issue_time_unique evs j t0 t0' nonce Hnd Hj Hin). lia.
Qed.

Lemma nonce_consumed_once_before_expiry_witness :
  NoDup (issued Scenario.history) /\
  (acceptances "n-1" (run Scenario.fresh_store Scenario.history) <= 1)%nat /\
  2000 <= 1000 + 300 * 1000.
Proof.
  assert (NoDup (issued Scenario.history)) as Hnd.
  { simpl. apply NoDup_cons. split; [|apply NoDup_singleton].
    intros Hin. apply list_elem_of_singleton in Hin. discriminate. }
  destruct (nonce_consumed_once_before_expiry 300 Scenario.history "n-1" Hnd)
    as [Honce Hexp].
  split; [exact Hnd|]. split; [exact Honce|].
  destruct (Hexp 1%nat (Event 2000 (VerifyAndUse "n-1")) eq_refl eq_refl) as [_ Hle].
  apply (Hle 1000). simpl. auto.
Defined.

End History.

(** ** Case-insensitive equality and hex text *)

Section Wording.

Import JsString Buffer Stated.

Lemma same_letter_lower c d :
  same_letter c d = Ascii.eqb (lower_unit c) (lower_unit d).
Proof.
  pose proof (below_2 256 256
    (fun n m => Bool.eqb (same_letter (ascii_of_N n) (ascii_of_N m))
                  (Ascii.eqb (lower_unit (ascii_of_N n)) (lower_unit (ascii_of_N m))))
    (N_of_ascii c) (N_of_ascii d)) as H.
  cbv beta in H. rewrite !ascii_N_embedding in H.
  apply Bool.eqb_prop, H.
  - vm_compute. reflexivity.
  - apply N_ascii_bounded.
  - apply N_ascii_bounded.
Qed.

(** The comparison of the code, [a.toLowerCase() === b.toLowerCase()], is
    equality under case-insensitive comparison. *)
Lemma same_ignoring_case_lower a :
  forall b, same_ignoring_case a b = (toLowerCase a =? toLowerCase b).
Proof.
  induction a as [|c a IH]; intros [|d b]; simpl; try reflexivity.
  rewrite same_letter_lower, IH.
  destruct (Ascii.eqb (lower_unit c) (lower_unit d)); reflexivity.
Qed.

Lemma hex_value_digit v : (v < 16)%N -> hex_value (hex_digit v) = Some v.
Proof.
  intros Hv.
  pose proof (below_1 16
    (fun v => match hex_value (hex_digit v) with
              | Some w => (w =? v)%N
              | None => false
              end) v) as H.
  cbv beta in H. specialize (H ltac:(vm_compute; reflexivity) ltac:(simpl; lia)).
  destruct (hex_value (hex_digit v)) as [w|]; [|discriminate].
  apply N.eqb_eq in H. subst w. reflexivity.
Qed.

(** The hex text of a buffer stands for the bytes of the buffer. *)
Lemma unhex_to_hex bs : unhex (to_hex bs) = Some bs.
Proof.
  induction bs as [|b bs IH]; [reflexivity|].
  cbn [to_hex unhex].
  pose proof (to_N_lt b) as Hb.
  rewrite !hex_value_digit, IH.
  - rewrite <- N.div_mod by lia. rewrite Byte.of_to_N. reflexivity.
  - apply N.mod_lt. lia.
  - apply N.Div0.div_lt_upper_bound. lia.
Qed.

End Wording.

(** ** The signature verifier *)

Section Verifier.

Import Verify JsString.

Variable bs58_decode : string -> outcome (list byte).
Variable nacl_sign_detached_verify : list byte -> list byte -> list byte -> outcome bool.
Variable verifyMessage : string -> string -> outcome string.

Abbreviation verifyProof :=
  (Verify.verifyProof bs58_decode nacl_sign_detached_verify verifyMessage).

(** C4. [verifyMetaMask] hands the library the message ["x402-proof:" +
    nonce] and the text ["0x"] followed by the hex digits of the signature
    bytes, and always returns a verdict. When the library recovers an
    address, the verdict has [ok] true exactly when that address equals the
    claimed account under case-insensitive comparison (the same length and
    the same letter at every position, in whatever case) and false
    otherwise, [who] is the address as recovered and the chain is EVM. When
    the library throws, the verdict is [metamask_verify_error]. *)
Theorem verifyMetaMask_case_insensitive (account : string) (sigBytes : list byte)
    (nonce : string) :
  exists v,
    verifyMetaMask verifyMessage account sigBytes nonce = Returned v /\
    Stated.unhex (Buffer.to_hex sigBytes) = Some sigBytes /\
    (forall recovered,
       verifyMessage ("x402-proof:" +:+ nonce) ("0x" +:+ Buffer.to_hex sigBytes)
         = Returned recovered ->
       v = {| ok := Stated.same_ignoring_case recovered account;
              who := Some recovered; chain := Some "evm"; reason := None |}) /\
    (forall err,
       verifyMessage ("x402-proof:" +:+ nonce) ("0x" +:+ Buffer.to_hex sigBytes)
         = Thrown err ->
       v = failure "metamask_verify_error") /\
    (ok v = true <->
       exists recovered,
         verifyMessage ("x402-proof:" +:+ nonce) ("0x" +:+ Buffer.to_hex sigBytes)
           = Returned recovered /\
         Stated.same_ignoring_case recovered account = true).
Proof.
  unfold verifyMetaMask.
  destruct (verifyMessage ("x402-proof:" +:+ nonce) ("0x" +:+ Buffer.to_hex sigBytes))
    as [recovered|err] eqn:Hrec; simpl.
  - eexists. split; [reflexivity|]. split; [apply unhex_to_hex|].
    rewrite <- same_ignoring_case_lower. split; [|split].
    + intros r [= <-]. reflexivity.
    + discriminate.
    + simpl. split.
      * intros Hok. exists recovered. auto.
      * intros (r & [= <-] & Heq). exact Heq.
  - eexists. split; [reflexivity|]. split; [apply unhex_to_hex|]. split; [|split].
    + discriminate.
    + reflexivity.
    + simpl. split; [discriminate|]. intros (r & Hr & _). discriminate.
Qed.

(** The scenario of the specification: the recovered address differs from
    the claimed account in letter case only. *)
Lemma verifyMetaMask_case_only (account recovered : string) (sigBytes : list byte)
    (nonce : string) :
  verifyMessage ("x402-proof:" +:+ nonce) ("0x" +:+ Buffer.to_hex sigBytes)
    = Returned recovered ->
  toLowerCase recovered = toLowerCase account ->
  verifyMetaMask verifyMessage account sigBytes nonce
    = Returned {| ok := true; who := Some recovered; chain := Some "evm"; reason := None |}.
Proof.
  intros Hrec Heq. unfold verifyMetaMask. rewrite Hrec. simpl.
  apply String.eqb_eq in Heq. rewrite Heq. reflexivity.
Qed.

Lemma verifyPhantom_returns account sigBytes nonce :
  exists v,
    verifyPhantom bs58_decode nacl_sign_detached_verify account sigBytes nonce = Returned v /\
    (v = failure "phantom_verify_error" \/
     exists b, v = {| ok := b; who := Some account; chain := Some "solana"; reason := None |}).
Proof.
  unfold verifyPhantom.
  destruct (bs58_decode account) as [pub|e1]; simpl; [|eauto].
  destruct (nacl_sign_detached_verify (msgBytes nonce) sigBytes pub) as [b|e2];
    simpl; eauto.
Qed.

Lemma verifyMetaMask_returns account sigBytes nonce :
  exists v,
    verifyMetaMask verifyMessage account sigBytes nonce = Returned v /\
    (v = failure "metamask_verify_error" \/
     exists b r, v = {| ok := b; who := Some r; chain := Some "evm"; reason := None |}).
Proof.
  unfold verifyMetaMask.
  destruct (verifyMessage ("x402-proof:" +:+ nonce) ("0x" +:+ Buffer.to_hex sigBytes))
    as [r|e]; simpl.
  - eexists. split; [reflexivity|]. right. eauto.
  - eexists. split; [reflexivity|]. left. reflexivity.
Qed.

(** C8, as amended. [verifyProof] never throws: whatever the header and
    whatever the libraries do, it returns a verdict, and which verdict is
    decided as follows. A header that does not parse gives [ok = false]
    with the reason of the parser. For a [phantom] proof, an exception of
    the base58 decoding or of the signature library gives [ok = false] with
    the reason [phantom_verify_error]; a completed check gives the
    library's boolean as [ok], the claimed account as [who], the chain, and
    no reason code, also when the boolean is false. For a [metamask] proof,
    an exception of the library gives [ok = false] with the reason
    [metamask_verify_error]; a recovered address gives as [ok] whether it
    equals the claimed account under case-insensitive comparison, the
    recovered address as [who], the chain, and no reason code, also when
    [ok] is false. *)
Theorem verifyProof_never_throws (header : option string) :
  exists v p,
    verifyProof header = Returned v /\
    parseProof header = Returned p /\
    match p with
    | ParseFail r =>
        v = failure r /\ In r ["missing_header"; "bad_format"; "bad_kind"]
    | ParseOk kind account nonce sigBytes =>
        (kind = "phantom" /\
         match bs58_decode account with
         | Thrown _ => v = failure "phantom_verify_error"
         | Returned pub =>
             match nacl_sign_detached_verify (msgBytes nonce) sigBytes pub with
             | Thrown _ => v = failure "phantom_verify_error"
             | Returned b =>
                 v = {| ok := b; who := Some account; chain := Some "solana";
                        reason := None |}
             end
         end) \/
        (kind = "metamask" /\
         match verifyMessage ("x402-proof:" +:+ nonce)
                 ("0x" +:+ Buffer.to_hex sigBytes) with
         | Thrown _ => v = failure "metamask_verify_error"
         | Returned recovered =>
             v = {| ok := Stated.same_ignoring_case recovered account;
                    who := Some recovered; chain := Some "evm"; reason := None |}
         end)
    end.
Proof.
  unfold Verify.verifyProof.
  destruct (parseProof_returns header) as (p & Hp & Hshape). rewrite Hp. simpl.
  destruct p as [r | kind account nonce sigBytes].
  - eexists. exists (ParseFail r). split; [reflexivity|]. split; [reflexivity|].
    split; [reflexivity|]. destruct Hshape as [-> | [-> | ->]]; simpl; tauto.
  - destruct Hshape as [-> | ->]; simpl.
    + unfold verifyPhantom.
      destruct (bs58_decode account) as [pub|e1] eqn:Hdec; simpl.
      * destruct (nacl_sign_detached_verify (msgBytes nonce) sigBytes pub)
          as [b|e2] eqn:Hv; simpl;
          eexists; eexists; (split; [reflexivity|]); (split; [reflexivity|]);
          left; (split; [reflexivity|]); rewrite Hdec, Hv; reflexivity.
      * eexists. eexists. split; [reflexivity|]. split; [reflexivity|].
        left. split; [reflexivity|]. rewrite Hdec. reflexivity.
    + unfold verifyMetaMask.
      destruct (verifyMessage ("x402-proof:" +:+ nonce) ("0x" +:+ Buffer.to_hex sigBytes))
        as [recovered|e] eqn:Hrec; simpl;
        eexists; eexists; (split; [reflexivity|]); (split; [reflexivity|]);
        right; (split; [reflexivity|]); rewrite Hrec;
        [rewrite same_ignoring_case_lower|]; reflexivity.
Qed.

End Verifier.

Lemma verifyMetaMask_case_insensitive_witness :
  Verify.verifyMetaMask Scenario.recovers_signer
    "0x7e5f4552091a69125d5dfcb7b8c2659029395bdf" Scenario.sig65 "n-1"
  = Returned {| Verify.ok := true; Verify.who := Some Scenario.signer;
                Verify.chain := Some "evm"; Verify.reason := None |} /\
  Verify.verifyMetaMask Scenario.recovers_signer
    "0x5B38Da6a701c568545dCfcB03FcB875f56beddC4" Scenario.sig65 "n-1"
  = Returned {| Verify.ok := false; Verify.who := Some Scenario.signer;
                Verify.chain := Some "evm"; Verify.reason := None |} /\
  Stated.unhex (Buffer.to_hex Scenario.sig65) = Some Scenario.sig65.
Proof.
  destruct (verifyMetaMask_case_insensitive Scenario.recovers_signer
              "0x7e5f4552091a69125d5dfcb7b8c2659029395bdf" Scenario.sig65 "n-1")
    as (v1 & Hv1 & Hhex & Hrec1 & _ & _).
  destruct (verifyMetaMask_case_insensitive Scenario.recovers_signer
              "0x5B38Da6a701c568545dCfcB03FcB875f56beddC4" Scenario.sig65 "n-1")
    as (v2 & Hv2 & _ & Hrec2 & _ & _).
  rewrite Hv1, Hv2, (Hrec1 Scenario.signer eq_refl), (Hrec2 Scenario.signer eq_refl).
  split; [reflexivity|]. split; [reflexivity | exact Hhex].
Defined.

(** C8, as stated, fails: the signature is a genuine one of [signer] over
    the message of the nonce, the header claims another account, and the
    verdict is negative without a reason code. *)
Lemma verifyProof_mismatch_has_no_reason :
  Scenario.other_account_header
  = "metamask:0x5B38Da6a701c568545dCfcB03FcB875f56beddC4:n-1:u1Di2JpO1wZj0IBln+CtS5vD4GwXoidDOWbLWc7uAg0uPjOdKAGNF5DeFAfj7K5g2wlg4f8mgLx86R2nmGI58Rw=" /\
  Verify.verifyProof Scenario.bs58_decoded Scenario.nacl_rejects Scenario.recovers_signer
    (Some Scenario.other_account_header)
  = Returned {| Verify.ok := false; Verify.who := Some Scenario.signer;
                Verify.chain := Some "evm"; Verify.reason := None |}.
Proof. split; vm_compute; reflexivity. Qed.

(** The same on the detached-signature path: a well-formed key and
    sixty-four bytes that are not its signature. *)
Lemma verifyProof_phantom_mismatch_has_no_reason :
  Scenario.sol_wrong_header
  = "phantom:AKnL4NNf3DGWZJS6cPknBuEGnVsV4A4m5tgebLHaRSZ9:n-1:BwcHBwcHBwcHBwcHBwcHBwcHBwcHBwcHBwcHBwcHBwcHBwcHBwcHBwcHBwcHBwcHBwcHBwcHBwcHBwcHBwcHBw==" /\
  Verify.verifyProof Scenario.bs58_decoded Scenario.nacl_rejects Scenario.recovers_signer
    (Some Scenario.sol_wrong_header)
  = Returned {| Verify.ok := false; Verify.who := Some Scenario.sol_account;
                Verify.chain := Some "solana"; Verify.reason := None |}.
Proof. split; vm_compute; reflexivity. Qed.

(** ** The payment gate *)

Section Gate.

Import Verify Server.

Variable cfg : Config.
Variable bs58_decode : string -> outcome (list byte).
Variable nacl_sign_detached_verify : list byte -> list byte -> list byte -> outcome bool.
Variable verifyMessage : string -> string -> outcome string.

Abbreviation verifyProof :=
  (Verify.verifyProof bs58_decode nacl_sign_detached_verify verifyMessage).
Abbreviation handlePremium :=
  (Server.handlePremium cfg bs58_decode nacl_sign_detached_verify verifyMessage).

(** What [send402] does to the ledger does not depend on the chain or on
    the configuration: one [issue], nothing else. *)
Lemma send402_ledger w chain st :
  calls (send402 cfg w chain st) = [CallIssue (uuid w)] /\
  store (send402 cfg w chain st) = snd (NonceStore.issue (uuid w) (now w) st) /\
  NonceStore.map (store (send402 cfg w chain st)) !! uuid w = Some (issued_entry w st) /\
  (forall n, n <> uuid w ->
     NonceStore.map (store (send402 cfg w chain st)) !! n = NonceStore.map st !! n).
Proof.
  unfold send402. simpl. repeat split.
  - apply lookup_insert_eq.
  - intros n Hn. apply lookup_insert_ne. congruence.
Qed.

(** The three answers of [send402]. *)
Lemma send402_reply w chain st :
  (receiver_for cfg chain = "" ->
     reply (send402 cfg w chain st)
       = Returned {| status := 500;
                     json := ErrorBody (if chain =? "evm" then "RECEIVER_EVM not set"
                                        else "RECEIVER_SOL not set") |}) /\
  (receiver_for cfg chain <> "" -> price_converts cfg chain ->
     exists answer, reply (send402 cfg w chain st) = Returned answer /\
                    is_challenge answer (uuid w)) /\
  (receiver_for cfg chain <> "" -> chain = "evm" ->
     forall err, PRICE_ETH_WEI_HEX cfg = Thrown err ->
     reply (send402 cfg w chain st) = Thrown err).
Proof.
  unfold send402, receiver_for, price_converts, is_challenge. simpl.
  destruct (chain =? "evm") eqn:Hchain.
  - apply String.eqb_eq in Hchain. subst chain.
    destruct (RECEIVER_EVM cfg =? "") eqn:Hr; simpl.
    + apply String.eqb_eq in Hr. split; [reflexivity|]. split; congruence.
    + apply String.eqb_neq in Hr. split; [congruence|]. split.
      * intros _ Hprice. destruct (Hprice eq_refl) as (hex & ->). simpl.
        eexists. split; [reflexivity|]. simpl. split; [reflexivity|].
        eexists. split; reflexivity.
      * intros _ _ err ->. reflexivity.
  - apply String.eqb_neq in Hchain.
    destruct (RECEIVER_SOL cfg =? "") eqn:Hr; simpl.
    + apply String.eqb_eq in Hr. split; [reflexivity|]. split; congruence.
    + apply String.eqb_neq in Hr. split; [congruence|]. split; [|congruence].
      intros _ _. eexists. split; [reflexivity|]. simpl. split; [reflexivity|].
      eexists. split; reflexivity.
Qed.

(** C10. When no receiving account is configured for the chain, [send402]
    answers 500 with the configuration error, and has by then issued a
    nonce: the ledger holds a new unused entry under an identifier that no
    answer carries. *)
Theorem send402_issues_before_receiver_check (w : env) (chain : string)
    (st : NonceStore.t) :
  receiver_for cfg chain = "" ->
  let r := send402 cfg w chain st in
  reply r = Returned {| status := 500;
                        json := ErrorBody (if chain =? "evm" then "RECEIVER_EVM not set"
                                           else "RECEIVER_SOL not set") |} /\
  calls r = [CallIssue (uuid w)] /\
  store r = snd (NonceStore.issue (uuid w) (now w) st) /\
  NonceStore.map (store r) !! uuid w = Some (issued_entry w st).
Proof.
  intros Hrecv r.
  destruct (send402_ledger w chain st) as (Hcalls & Hstore & Hnew & _).
  destruct (send402_reply w chain st) as [H500 _].
  split; [apply H500, Hrecv|]. auto.
Qed.

(** A chain query that does not stringify ends the run at its first
    statement. *)
Lemma handlePremium_throws w req st err :
  chainQuery req = Thrown err -> handlePremium w req st = thrown err st.
Proof. intros H. unfold Server.handlePremium. rewrite H. reflexivity. Qed.

Lemma handlePremium_empty_header w req st q :
  chainQuery req = Returned q ->
  x402_proof req = Some "" \/ x402_proof req = None ->
  exists chain, handlePremium w req st = send402 cfg w chain st.
Proof.
  intros Hq H. unfold Server.handlePremium. rewrite Hq. cbn [attempt].
  assert (exists chain,
            (if q =? "evm" then send402 cfg w "evm" st
             else if q =? "solana" then send402 cfg w "solana" st
             else send402 cfg w (if RECEIVER_SOL cfg =? "" then "evm" else "solana") st)
            = send402 cfg w chain st) as Hno.
  { destruct (q =? "evm"); [eauto|]. destruct (q =? "solana"); eauto. }
  destruct H as [-> | ->]; exact Hno.
Qed.

Lemma handlePremium_header w req st q c h :
  chainQuery req = Returned q ->
  x402_proof req = Some (String c h) ->
  handlePremium w req st =
    attempt (parseProof (Some (String c h))) st (fun p =>
    if negb (parsed_ok p) then send402 cfg w (or_else q "solana") st
    else
      attempt (verifyProof (Some (String c h))) st (fun verified =>
      if negb (ok verified) then
        send402 cfg w
          (or_else q
             (if bool_decide (parsed_kind p = Some "metamask") then "evm" else "solana"))
          st
      else
        attempt (parseProof (Some (String c h))) st (fun p' =>
        let nonce := parsed_nonce p' in
        match verifyAndUse_value nonce (now w) st with
        | (NonceStore.Refused r, st') =>
            {| reply := Returned {| status := 402; json := ErrorBody r |};
               store := st'; calls := [CallVerifyAndUse nonce] |}
        | (NonceStore.Accepted, st') =>
            {| reply := Returned {| status := 200;
                                    json := PremiumBody (who verified) (chain verified)
                                              (now w) |};
               store := st'; calls := [CallVerifyAndUse nonce] |}
        end))).
Proof.
  intros Hq H. unfold Server.handlePremium. rewrite Hq, H. reflexivity.
Qed.

(** An invalid proof is answered by [send402], for some chain. *)
Lemma invalid_proof_goes_to_send402 w req st q h :
  chainQuery req = Returned q ->
  x402_proof req = Some h ->
  (exists p, parseProof (Some h) = Returned p /\ parsed_ok p = false) \/
  (exists v, verifyProof (Some h) = Returned v /\ ok v = false) ->
  exists chain, handlePremium w req st = send402 cfg w chain st.
Proof.
  intros Hq Hreq Hbad.
  destruct h as [|c h]; [apply (handlePremium_empty_header w req st q Hq); auto|].
  rewrite (handlePremium_header w req st q c h Hq Hreq).
  destruct (parseProof_returns (Some (String c h))) as (p & Hp & _).
  rewrite Hp. cbn [attempt].
  destruct (parsed_ok p) eqn:Hok; cbn [negb]; [|eauto].
  destruct Hbad as [(p0 & Hp0 & Hok0) | (v & Hv & Hokv)]; [congruence|].
  rewrite Hv. cbn [attempt]. rewrite Hokv. cbn [negb]. eauto.
Qed.


Lemma handlePremium_valid_proof w req st q h kind account nonce sigBytes v :
  chainQuery req = Returned q ->
  x402_proof req = Some h ->
  parseProof (Some h) = Returned (ParseOk kind account nonce sigBytes) ->
  verifyProof (Some h) = Returned v ->
  ok v = true ->
  handlePremium w req st =
    match NonceStore.verifyAndUse nonce (now w) st with
    | (NonceStore.Refused r, st') =>
        {| reply := Returned {| status := 402; json := ErrorBody r |};
           store := st'; calls := [CallVerifyAndUse (Some nonce)] |}
    | (NonceStore.Accepted, st') =>
        {| reply := Returned {| status := 200;
                                json := PremiumBody (who v) (chain v) (now w) |};
           store := st'; calls := [CallVerifyAndUse (Some nonce)] |}
    end.
Proof.
  intros Hq Hreq Hp Hv Hok.
  destruct h as [|c h]; [discriminate|].
  rewrite (handlePremium_header w req st q c h Hq Hreq).
  rewrite Hp. cbn [attempt parsed_ok negb]. rewrite Hv. cbn [attempt].
  rewrite Hok. cbn [negb parsed_nonce verifyAndUse_value]. reflexivity.
Qed.

(** C5. When the proof parses and verifies and [verifyAndUse] refuses the
    nonce, the answer is 402 with the reason of the refusal, the only call
    on the ledger is that [verifyAndUse], and the store is what it was: no
    nonce is issued. (The handler gets as far as the proof only when the
    chain query stringifies.) *)
Theorem refused_nonce_is_reported_not_reissued (w : env) (req : request)
    (st : NonceStore.t) (q h kind account nonce : string) (sigBytes : list byte)
    (v : verdict) (why : string) :
  chainQuery req = Returned q ->
  x402_proof req = Some h ->
  parseProof (Some h) = Returned (ParseOk kind account nonce sigBytes) ->
  verifyProof (Some h) = Returned v ->
  ok v = true ->
  fst (NonceStore.verifyAndUse nonce (now w) st) = NonceStore.Refused why ->
  handlePremium w req st
    = {| reply := Returned {| status := 402; json := ErrorBody why |};
         store := st;
         calls := [CallVerifyAndUse (Some nonce)] |} /\
  In why ["nonce_not_found"; "nonce_expired"; "nonce_replayed"].
Proof.
  intros Hq Hreq Hp Hv Hok Hrefused.
  rewrite (handlePremium_valid_proof w req st q h kind account nonce sigBytes v
             Hq Hreq Hp Hv Hok).
  pose proof (verifyAndUse_refused_same nonce (now w) st why Hrefused) as Hsame.
  destruct (NonceStore.verifyAndUse nonce (now w) st) as [r st'] eqn:Hvu.
  simpl in Hrefused, Hsame. subst r st'. split; [reflexivity|].
  unfold NonceStore.verifyAndUse in Hvu.
  destruct (NonceStore.map st !! nonce) as [e|]; [|injection Hvu as <-; simpl; tauto].
  destruct (_ >? _)%Z; [injection Hvu as <-; simpl; tauto|].
  destruct (NonceStore.used e); [injection Hvu as <-; simpl; tauto | discriminate].
Qed.

End Gate.

(** ** The gate on concrete requests *)

Section GateScenarios.

Import Verify Server Scenario.

Example headers_spelled_out :
  good_header
  = "metamask:0x7e5f4552091a69125d5dfcb7b8c2659029395bdf:n-1:u1Di2JpO1wZj0IBln+CtS5vD4GwXoidDOWbLWc7uAg0uPjOdKAGNF5DeFAfj7K5g2wlg4f8mgLx86R2nmGI58Rw=" /\
  sol_header
  = "phantom:AKnL4NNf3DGWZJS6cPknBuEGnVsV4A4m5tgebLHaRSZ9:n-1:Tu5kEBDFNYKSoBaRLGPA7jTX+6C1n6bz7O3D8x/s0MHUKtIbTvgljc2uNtjrTxHAJCzOAogvBF7xKrD72GmjAw==" /\
  "0x" +:+ Buffer.to_hex sig65 = sig65_hex.
Proof. repeat split; vm_compute; reflexivity. Qed.



(** And in another way: a chain query that does not stringify, here
    [?chain[toString]=x], ends the handler before it sends anything. *)
Lemma malformed_proof_unanswered_when_query_throws :
  let req := {| query_chain := Some Cases.toString_query;
                x402_proof := Some "garbage" |} in
  Server.handlePremium configured bs58_decoded nacl_rejects recovers_signer
    at_5000 req store_with_n1
  = thrown "TypeError: toString is not a function" store_with_n1.
Proof. reflexivity. Qed.

Lemma refused_nonce_is_reported_not_reissued_witness :
  Server.handlePremium configured bs58_decoded nacl_rejects recovers_signer
    at_5000 (request_with good_header) store_n1_used
  = {| reply := Returned {| status := 402; json := ErrorBody "nonce_replayed" |};
       store := store_n1_used;
       calls := [CallVerifyAndUse (Some "n-1")] |}.
Proof.
  apply (refused_nonce_is_reported_not_reissued configured bs58_decoded nacl_rejects
           recovers_signer at_5000 (request_with good_header) store_n1_used
           "" good_header "metamask" "0x7e5f4552091a69125d5dfcb7b8c2659029395bdf" "n-1"
           sig65
           {| ok := true; who := Some signer; chain := Some "evm"; reason := None |}
           "nonce_replayed").
  - reflexivity.
  - reflexivity.
  - vm_compute. reflexivity.
  - vm_compute. reflexivity.
  - reflexivity.
  - vm_compute. reflexivity.
Defined.

Lemma send402_issues_before_receiver_check_witness :
  let r := send402 unconfigured at_5000 "evm" fresh_store in
  reply r = Returned {| status := 500; json := ErrorBody "RECEIVER_EVM not set" |} /\
  calls r = [CallIssue "u-9"] /\
  store r = snd (NonceStore.issue "u-9" 5000 fresh_store) /\
  NonceStore.map (store r) !! "u-9"
    = Some {| NonceStore.createdAt := 5000; NonceStore.expiresAt := 305000;
              NonceStore.used := false |}.
Proof.
  exact (send402_issues_before_receiver_check unconfigured at_5000 "evm" fresh_store
           eq_refl).
Defined.

(** The scenario of the specification for C4: the signature is one of
    [signer], the header claims the same address in lower case, and the
    proof verifies with [who] the address as recovered. *)
Example verifyProof_case_only :
  Verify.verifyProof bs58_decoded nacl_rejects recovers_signer (Some good_header)
  = Returned {| ok := true; who := Some signer; chain := Some "evm"; reason := None |}.
Proof. vm_compute. reflexivity. Qed.

End GateScenarios.

(** * Further properties of the code *)

(** ** The nonce store: [issue], [exists], [isExpired], [isUsed], [gc] *)

Section LedgerMore.

Import NonceStore.

Local Open Scope Z_scope.

Lemma gc_lookup_iff now s n e :
  map (gc now s) !! n = Some e <->
  map s !! n = Some e /\ used e = false /\ now <= expiresAt e + 60000.
Proof.
  unfold gc. simpl. rewrite map_lookup_filter_Some. unfold collectable. simpl.
  rewrite orb_false_iff.
  destruct (Z.gtb_spec now (expiresAt e + 60000)); intuition (try discriminate; lia).
Qed.

(** X1. [gc] keeps exactly the entries that are unused and whose expiry
    plus the 60 s grace has not passed, each as it was; the TTL is kept. *)
Theorem gc_keeps_exactly_live (now : Z) (s : t) (n : string) (e : entry) :
  (map (gc now s) !! n = Some e <->
     map s !! n = Some e /\ used e = false /\ now <= expiresAt e + 60000) /\
  ttl (gc now s) = ttl s.
Proof.
  split; [|reflexivity].
  unfold gc. simpl. rewrite map_lookup_filter_Some. unfold collectable. simpl.
  rewrite orb_false_iff.
  destruct (Z.gtb_spec now (expiresAt e + 60000)); intuition (try discriminate; lia).
Qed.

Lemma store_eq (s1 s2 : t) :
  ttl s1 = ttl s2 -> (forall n e, map s1 !! n = Some e <-> map s2 !! n = Some e) ->
  s1 = s2.
Proof.
  destruct s1 as [t1 m1], s2 as [t2 m2]. simpl. intros -> H. f_equal.
  apply map_eq. intros n. apply option_eq. intros e. apply H.
Qed.

(** X2. Collecting twice is collecting once at the later time: a [gc] at
    [t1] followed by a [gc] at [t2], with [t1 <= t2], leaves the store a
    single [gc] at [t2] leaves. *)
Theorem gc_gc (t1 t2 : Z) (s : t) :
  t1 <= t2 -> gc t2 (gc t1 s) = gc t2 s.
Proof.
  intros Hle. apply store_eq; [reflexivity|].
  intros n e. rewrite !gc_lookup_iff. intuition lia.
Qed.

Lemma gc_gc_witness : gc 4000 (gc 3000 Scenario.store_n1_used) = gc 4000 Scenario.store_n1_used.
Proof. apply (gc_gc 3000 4000 Scenario.store_n1_used). lia. Defined.

Lemma verifyAndUse_accepted_iff nonce now s :
  fst (verifyAndUse nonce now s) = Accepted <->
  exists e, map s !! nonce = Some e /\ now <= expiresAt e /\ used e = false.
Proof.
  split.
  - intros H. apply verifyAndUse_accepted in H as (e & He & Hle & Hu & _). eauto.
  - intros (e & He & Hle & Hu). unfold verifyAndUse. rewrite He.
    destruct (Z.gtb_spec now (expiresAt e)); [lia|]. rewrite Hu. reflexivity.
Qed.

(** X3. [gc] never makes a nonce consumable, and a [gc] that ran at a time
    not later than 60 s after the time of the check never takes a consumable
    nonce away: [verifyAndUse] accepts after the [gc] exactly when it
    accepts without it. *)
Theorem gc_keeps_consumable (tgc now : Z) (nonce : string) (s : t) :
  tgc <= now + 60000 ->
  (fst (verifyAndUse nonce now (gc tgc s)) = Accepted <->
   fst (verifyAndUse nonce now s) = Accepted).
Proof.
  intros Hle. rewrite !verifyAndUse_accepted_iff. split.
  - intros (e & He & Hnow & Hu). apply gc_lookup_iff in He as (He & _ & _). eauto.
  - intros (e & He & Hnow & Hu). exists e. split; [|auto].
    apply gc_lookup_iff. split; [exact He|]. split; [exact Hu | lia].
Qed.

Lemma gc_keeps_consumable_witness :
  fst (verifyAndUse "n-1" 2000 (gc 1500 Scenario.store_with_n1)) = Accepted <->
  fst (verifyAndUse "n-1" 2000 Scenario.store_with_n1) = Accepted.
Proof. apply (gc_keeps_consumable 1500 2000 "n-1" Scenario.store_with_n1). lia. Defined.

(** X4. Once a nonce has been consumed and a [gc] has run, whenever that
    was, the nonce is unknown: a further [verifyAndUse] answers
    [nonce_not_found], not [nonce_replayed]. *)
Theorem consumed_then_collected_is_not_found (nonce : string) (t1 t2 t3 : Z) (s : t) :
  fst (verifyAndUse nonce t1 s) = Accepted ->
  verifyAndUse nonce t3 (gc t2 (snd (verifyAndUse nonce t1 s)))
  = (Refused "nonce_not_found", gc t2 (snd (verifyAndUse nonce t1 s))).
Proof.
  intros Hacc. pose proof (accepted_spent nonce t1 s Hacc) as Hsp.
  set (s1 := snd (verifyAndUse nonce t1 s)) in *.
  unfold verifyAndUse.
  destruct (map (gc t2 s1) !! nonce) as [e|] eqn:He; [|reflexivity].
  apply gc_lookup_iff in He as (He & Hu & _).
  rewrite (Hsp e He) in Hu. discriminate.
Qed.

Lemma consumed_then_collected_is_not_found_witness :
  verifyAndUse "n-1" 5000 (gc 4000 Scenario.store_n1_used)
  = (Refused "nonce_not_found", gc 4000 Scenario.store_n1_used).
Proof.
  exact (consumed_then_collected_is_not_found "n-1" 2000 4000 5000
           Scenario.store_with_n1 eq_refl).
Defined.

(** X5. A nonce just issued at [t0] is accepted at [t] exactly when [t] is
    not past [t0 + ttl * 1000], and is reported expired otherwise, whatever
    the store held under that identifier before. *)
Theorem issue_then_verifyAndUse (uuid : string) (t0 now : Z) (s : t) :
  fst (verifyAndUse uuid now (snd (issue uuid t0 s)))
  = if now >? t0 + ttl s * 1000 then Refused "nonce_expired" else Accepted.
Proof.
  unfold verifyAndUse, issue. simpl. rewrite lookup_insert_eq. simpl.
  destruct (now >? t0 + ttl s * 1000); reflexivity.
Qed.

(** X6. The three queries agree with [verifyAndUse]: it accepts a nonce
    exactly when [exists] holds and neither [isExpired] nor [isUsed] does;
    for a nonce without entry [isExpired] and [isUsed] both answer true. *)
Theorem verifyAndUse_agrees_with_queries (nonce : string) (now : Z) (s : t) :
  (fst (verifyAndUse nonce now s) = Accepted <->
     exists_ nonce s = true /\ isExpired nonce now s = false /\ isUsed nonce s = false) /\
  (exists_ nonce s = false -> isExpired nonce now s = true /\ isUsed nonce s = true).
Proof.
  unfold verifyAndUse, exists_, isExpired, isUsed.
  destruct (map s !! nonce) as [e|] eqn:He.
  - assert (bool_decide (is_Some (Some e)) = true) as ->
      by (apply bool_decide_eq_true; eauto).
    split; [|discriminate].
    destruct (now >? expiresAt e); [simpl; intuition discriminate|].
    destruct (used e); simpl; intuition discriminate.
  - split; [|auto]. split; [discriminate|]. intros (_ & H & _). discriminate.
Qed.

(** X7. [verifyAndUse] touches nothing but the entry of its nonce: every
    other entry, the TTL and the set of known nonces are as before. *)
Theorem verifyAndUse_frame (nonce : string) (now : Z) (s : t) :
  (forall n, n <> nonce ->
     map (snd (verifyAndUse nonce now s)) !! n = map s !! n) /\
  ttl (snd (verifyAndUse nonce now s)) = ttl s /\
  dom (map (snd (verifyAndUse nonce now s))) = dom (map s).
Proof.
  split; [|split; [apply verifyAndUse_ttl|]].
  - intros n Hn. unfold verifyAndUse.
    destruct (map s !! nonce) as [e|]; [|reflexivity].
    destruct (now >? expiresAt e); [reflexivity|].
    destruct (used e); [reflexivity|]. simpl.
    apply lookup_insert_ne. congruence.
  - unfold verifyAndUse.
    destruct (map s !! nonce) as [e|] eqn:He; [|reflexivity].
    destruct (now >? expiresAt e); [reflexivity|].
    destruct (used e); [reflexivity|]. simpl.
    rewrite dom_insert_L. apply elem_of_dom_2 in He.
    apply subseteq_union_1_L, singleton_subseteq_l, He.
Qed.

End LedgerMore.

(** ** Histories, continued *)

Section HistoryMore.

Import NonceStore Trace.

Local Open Scope Z_scope.

Lemma span_step ttl0 s ev :
  ttl s = ttl0 ->
  (forall n e, map s !! n = Some e -> expiresAt e = createdAt e + ttl0 * 1000) ->
  ttl (snd (step s ev)) = ttl0 /\
  (forall n e, map (snd (step s ev)) !! n = Some e ->
     expiresAt e = createdAt e + ttl0 * 1000).
Proof.
  intros Httl Hs. destruct ev as [now c]. unfold step. simpl.
  destruct c as [u|m|]; simpl.
  - split; [exact Httl|]. intros n e.
    destruct (decide (u = n)) as [->|Hne].
    + rewrite lookup_insert_eq. intros [= <-]. simpl. rewrite Httl. reflexivity.
    + rewrite lookup_insert_ne by exact Hne. apply Hs.
  - destruct (verifyAndUse m now s) as [r s'] eqn:Hv. simpl.
    assert (s' = snd (verifyAndUse m now s)) as -> by (rewrite Hv; reflexivity).
    split; [rewrite verifyAndUse_ttl; exact Httl|].
    intros n e He.
    apply verifyAndUse_lookup in He as [He | (_ & e0 & He0 & ->)].
    + apply (Hs n e He).
    + simpl. apply (Hs n e0 He0).
  - split; [exact Httl|]. intros n e He. apply gc_lookup in He. apply (Hs n e He).
Qed.

Lemma replay_span ttl0 evs :
  ttl (replay (create ttl0) evs) = ttl0 /\
  forall n e, map (replay (create ttl0) evs) !! n = Some e ->
    expiresAt e = createdAt e + ttl0 * 1000.
Proof.
  induction evs as [|ev evs IH] using rev_ind.
  - split; [reflexivity|]. intros n e. simpl. rewrite lookup_empty. discriminate.
  - rewrite replay_snoc. destruct IH as [Httl Hs]. apply span_step; assumption.
Qed.

(** X8. In every store reached from a new one by [issue], [verifyAndUse]
    and [gc] calls, the TTL is the one the store was created with and every
    entry expires exactly TTL seconds after its creation time. *)
Theorem reachable_entries_span_ttl (ttl0 : Z) (evs : list event) :
  ttl (replay (create ttl0) evs) = ttl0 /\
  forall n e, map (replay (create ttl0) evs) !! n = Some e ->
    expiresAt e = createdAt e + ttl0 * 1000.
Proof.
  induction evs as [|ev evs IH] using rev_ind.
  - split; [reflexivity|]. intros n e. simpl. rewrite lookup_empty. discriminate.
  - rewrite replay_snoc. destruct IH as [Httl Hs]. apply span_step; assumption.
Qed.

Lemma stale_step n t s ev :
  (forall e, map s !! n = Some e -> expiresAt e < t) ->
  call ev <> Issue n ->
  forall e, map (snd (step s ev)) !! n = Some e -> expiresAt e < t.
Proof.
  intros Hs Hcall e. unfold step.
  destruct (call ev) as [u|m|] eqn:Hc; simpl.
  - rewrite lookup_insert_ne by congruence. apply Hs.
  - destruct (verifyAndUse m (at_time ev) s) as [r s'] eqn:Hv. simpl. intros He.
    replace s' with (snd (verifyAndUse m (at_time ev) s)) in He by (rewrite Hv; reflexivity).
    apply verifyAndUse_lookup in He as [He | (_ & e0 & He0 & ->)].
    + apply (Hs e He).
    + simpl. apply (Hs e0 He0).
  - intros He. apply gc_lookup in He. apply (Hs e He).
Qed.

Lemma stale_never_accepted n t evs :
  forall s,
    (forall e, map s !! n = Some e -> expiresAt e < t) ->
    n ∉ issued evs ->
    Forall (fun ev => t <= at_time ev) evs ->
    acceptances n (run s evs) = 0%nat.
Proof.
  induction evs as [|ev rest IH]; intros s Hs Hni Hlater; [reflexivity|].
  apply not_issued_cons in Hni as [Hcall Hni].
  apply Forall_cons in Hlater as [Hev Hlater].
  cbn [run]. rewrite acceptances_cons.
  rewrite (IH _ (stale_step n t s ev Hs Hcall) Hni Hlater).
  destruct (accepted n (ev, fst (step s ev))) eqn:Hacc; [|reflexivity].
  apply accepted_step in Hacc as [_ Hacc].
  apply verifyAndUse_accepted in Hacc as (e & He & Hle & _).
  specialize (Hs e He). lia.
Qed.

(** X9. Expiry is final while the clock does not go back: once
    [verifyAndUse] has answered [nonce_expired] for a nonce at time [t], no
    later history in which the nonce is not issued again and every call
    reads a clock of at least [t] contains an accepted [verifyAndUse] of
    it. *)
Theorem expired_is_never_accepted_later (nonce : string) (t : Z) (s : NonceStore.t)
    (evs : list event) :
  fst (verifyAndUse nonce t s) = Refused "nonce_expired" ->
  nonce ∉ issued evs ->
  Forall (fun ev => t <= at_time ev) evs ->
  acceptances nonce (run s evs) = 0%nat.
Proof.
  intros Hexp. apply stale_never_accepted.
  intros e He. unfold verifyAndUse in Hexp. rewrite He in Hexp.
  destruct (Z.gtb_spec t (expiresAt e)); [lia|].
  destruct (used e); discriminate.
Qed.

Lemma expired_is_never_accepted_later_witness :
  acceptances "n-1" (run Scenario.store_with_n1 Cases.expired_history) = 0%nat.
Proof.
  apply (expired_is_never_accepted_later "n-1" 400000 Scenario.store_with_n1
           Cases.expired_history).
  - reflexivity.
  - simpl. intros Hin. apply list_elem_of_singleton in Hin. discriminate.
  - unfold Cases.expired_history. repeat (apply Forall_cons; split; [simpl; lia|]).
    apply Forall_nil. exact I.
Defined.

End HistoryMore.

(** ** The payment gate, continued *)

Section GateMore.

Import Verify Server.

Variable cfg : Config.
Variable bs58_decode : string -> outcome (list byte).
Variable nacl_sign_detached_verify : list byte -> list byte -> list byte -> outcome bool.
Variable verifyMessage : string -> string -> outcome string.

Abbreviation verifyProof' :=
  (Verify.verifyProof bs58_decode nacl_sign_detached_verify verifyMessage).
Abbreviation handlePremium' :=
  (Server.handlePremium cfg bs58_decode nacl_sign_detached_verify verifyMessage).

Lemma verifyProof_returns header : exists v, verifyProof' header = Returned v.
Proof.
  unfold Verify.verifyProof.
  destruct (parseProof_returns header) as (p & -> & Hp). simpl.
  destruct p as [r | kind account nonce sigBytes]; [eauto|].
  destruct Hp as [-> | ->]; simpl.
  - destruct (verifyPhantom_returns bs58_decode nacl_sign_detached_verify
                account sigBytes nonce) as (v & -> & _). eauto.
  - destruct (verifyMetaMask_returns verifyMessage account sigBytes nonce)
      as (v & -> & _). eauto.
Qed.

(** [send402] answers 402 or 500, or ends with the exception of the price
    conversion. *)
Lemma send402_status w chain st :
  (exists answer, reply (send402 cfg w chain st) = Returned answer /\
                  (status answer = 402%Z \/ status answer = 500%Z)) \/
  (exists err, reply (send402 cfg w chain st) = Thrown err /\
               chain = "evm" /\ RECEIVER_EVM cfg <> "" /\
               PRICE_ETH_WEI_HEX cfg = Thrown err).
Proof.
  unfold send402. simpl.
  destruct (chain =? "evm") eqn:Hc.
  - apply String.eqb_eq in Hc. subst chain.
    destruct (RECEIVER_EVM cfg =? "") eqn:Hr; simpl; [left; eauto|].
    apply String.eqb_neq in Hr.
    destruct (PRICE_ETH_WEI_HEX cfg) as [hex|err]; simpl; [left; eauto|].
    right. eauto.
  - destruct (RECEIVER_SOL cfg =? ""); simpl; left; eauto.
Qed.

(** The ways a request is handled. *)
Lemma handlePremium_paths w req st :
  (exists err, chainQuery req = Thrown err /\ handlePremium' w req st = thrown err st) \/
  (exists q chain, chainQuery req = Returned q /\
     handlePremium' w req st = send402 cfg w chain st) \/
  (exists q h kind account nonce sigBytes v,
     chainQuery req = Returned q /\
     x402_proof req = Some h /\
     parseProof (Some h) = Returned (ParseOk kind account nonce sigBytes) /\
     verifyProof' (Some h) = Returned v /\ ok v = true).
Proof.
  assert ((exists q, chainQuery req = Returned q) \/
          (exists err, chainQuery req = Thrown err)) as [(q & Hq) | (err & Hq)]
    by (destruct (chainQuery req); eauto).
  2:{ left. exists err. split; [exact Hq|].
      apply (handlePremium_throws cfg bs58_decode nacl_sign_detached_verify
               verifyMessage w req st err Hq). }
  right.
  destruct (x402_proof req) as [h|] eqn:Hreq.
  2:{ left. exists q.
      destruct (handlePremium_empty_header cfg bs58_decode nacl_sign_detached_verify
                  verifyMessage w req st q Hq (or_intror Hreq)) as (chain & H).
      eauto. }
  destruct (parseProof_returns (Some h)) as (p & Hp & _).
  destruct (verifyProof_returns (Some h)) as (v & Hv).
  assert ((exists p, parseProof (Some h) = Returned p /\ parsed_ok p = false) \/
          (exists v, verifyProof' (Some h) = Returned v /\ ok v = false) ->
          exists q chain, chainQuery req = Returned q /\
            handlePremium' w req st = send402 cfg w chain st) as Hbad.
  { intros H.
    destruct (invalid_proof_goes_to_send402 cfg bs58_decode nacl_sign_detached_verify
                verifyMessage w req st q h Hq Hreq H) as (chain & Hrun).
    eauto. }
  destruct p as [r | kind account nonce sigBytes]; [left; apply Hbad; left; eauto|].
  destruct (ok v) eqn:Hok; [|left; apply Hbad; right; eauto].
  right. exists q, h, kind, account, nonce, sigBytes, v. auto.
Qed.

(** X10. No grant without a valid proof and a consumable nonce: when the
    handler answers 200, the header parsed, the verdict of [verifyProof] on
    it was positive, [who] and [chain] of the answer are those of the
    verdict, and the nonce of the header had an unused, unexpired entry,
    which the handler has marked used and otherwise left alone. *)
Theorem grant_requires_valid_proof_and_nonce (w : env) (req : request)
    (st : NonceStore.t) (answer : response) :
  reply (handlePremium' w req st) = Returned answer ->
  status answer = 200%Z ->
  exists h kind account nonce sigBytes v e,
    x402_proof req = Some h /\
    parseProof (Some h) = Returned (ParseOk kind account nonce sigBytes) /\
    verifyProof' (Some h) = Returned v /\ ok v = true /\
    json answer = PremiumBody (who v) (chain v) (now w) /\
    NonceStore.map st !! nonce = Some e /\
    NonceStore.used e = false /\ (now w <= NonceStore.expiresAt e)%Z /\
    store (handlePremium' w req st)
    = {| NonceStore.ttl := NonceStore.ttl st;
         NonceStore.map := <[nonce := NonceStore.mark_used e]> (NonceStore.map st) |}.
Proof.
  intros Hrun Hstatus.
  destruct (handlePremium_paths w req st)
    as [(err & _ & Hthrow)
       |[(q & chain & _ & Hsend)
        |(q & h & kind & account & nonce & sigBytes & v & Hq & Hreq & Hp & Hv & Hok)]].
  { rewrite Hthrow in Hrun. discriminate. }
  { rewrite Hsend in Hrun.
    destruct (send402_status w chain st) as [(a & Ha & Hs) | (err & Ha & _)];
      rewrite Ha in Hrun; [|discriminate].
    injection Hrun as <-. destruct Hs as [Hs | Hs]; rewrite Hs in Hstatus; discriminate. }
  rewrite (handlePremium_valid_proof cfg bs58_decode nacl_sign_detached_verify
             verifyMessage w req st q h kind account nonce sigBytes v
             Hq Hreq Hp Hv Hok) in *.
  destruct (NonceStore.verifyAndUse nonce (now w) st) as [[|why] st'] eqn:Hvu;
    simpl in Hrun; injection Hrun as <-; [|simpl in Hstatus; discriminate].
  assert (fst (NonceStore.verifyAndUse nonce (now w) st) = NonceStore.Accepted) as Hacc
    by (rewrite Hvu; reflexivity).
  apply verifyAndUse_accepted in Hacc as (e & He & Hle & Hu & Hst).
  rewrite Hvu in Hst. simpl in Hst.
  exists h, kind, account, nonce, sigBytes, v, e. simpl. auto 10.
Qed.

(** X11. A proof that parses and verifies, on a nonce [verifyAndUse]
    accepts, is granted: the answer is 200 with [who] and [chain] of the
    verdict, the store is the one [verifyAndUse] leaves, and no nonce is
    issued. (The handler gets as far as the proof only when the chain query
    stringifies.) *)
Theorem valid_proof_is_granted (w : env) (req : request) (st : NonceStore.t)
    (q h kind account nonce : string) (sigBytes : list byte) (v : verdict) :
  chainQuery req = Returned q ->
  x402_proof req = Some h ->
  parseProof (Some h) = Returned (ParseOk kind account nonce sigBytes) ->
  verifyProof' (Some h) = Returned v ->
  ok v = true ->
  fst (NonceStore.verifyAndUse nonce (now w) st) = NonceStore.Accepted ->
  handlePremium' w req st
  = {| reply := Returned {| status := 200;
                            json := PremiumBody (who v) (chain v) (now w) |};
       store := snd (NonceStore.verifyAndUse nonce (now w) st);
       calls := [CallVerifyAndUse (Some nonce)] |}.
Proof.
  intros Hq Hreq Hp Hv Hok Hacc.
  rewrite (handlePremium_valid_proof cfg bs58_decode nacl_sign_detached_verify
             verifyMessage w req st q h kind account nonce sigBytes v
             Hq Hreq Hp Hv Hok).
  destruct (NonceStore.verifyAndUse nonce (now w) st) as [[|why] st']; [reflexivity|].
  discriminate.
Qed.

(** X12. The same proof does not unlock twice: after a request has been
    granted, a request carrying the same header, at whatever clock reading,
    is answered 402 with [nonce_replayed] or [nonce_expired], and leaves
    the store as the grant left it. (The second request, too, gets as far
    as the proof only when its chain query stringifies.) *)
Theorem granted_proof_is_refused_again (w1 w2 : env) (req1 req2 : request)
    (st : NonceStore.t) (answer1 : response) (q2 h : string) :
  x402_proof req1 = Some h ->
  x402_proof req2 = Some h ->
  reply (handlePremium' w1 req1 st) = Returned answer1 ->
  status answer1 = 200%Z ->
  chainQuery req2 = Returned q2 ->
  exists why,
    handlePremium' w2 req2 (store (handlePremium' w1 req1 st))
    = {| reply := Returned {| status := 402; json := ErrorBody why |};
         store := store (handlePremium' w1 req1 st);
         calls := calls (handlePremium' w1 req1 st) |} /\
    (why = "nonce_replayed" \/ why = "nonce_expired").
Proof.
  intros Hreq1 Hreq2 Hrun Hstatus Hq2.
  destruct (handlePremium_paths w1 req1 st)
    as [(err & _ & Hthrow)
       |[(q & chain & _ & Hsend)
        |(q & h' & kind & account & nonce & sigBytes & v & Hq & Hreq & Hp & Hv & Hok)]].
  { rewrite Hthrow in Hrun. discriminate. }
  { rewrite Hsend in Hrun.
    destruct (send402_status w1 chain st) as [(a & Ha & Hs) | (err & Ha & _)];
      rewrite Ha in Hrun; [|discriminate].
    injection Hrun as <-. destruct Hs as [Hs | Hs]; rewrite Hs in Hstatus; discriminate. }
  assert (h' = h) as -> by congruence.
  rewrite (handlePremium_valid_proof cfg bs58_decode nacl_sign_detached_verify
             verifyMessage w1 req1 st q h kind account nonce sigBytes v
             Hq Hreq1 Hp Hv Hok) in *.
  rewrite (handlePremium_valid_proof cfg bs58_decode nacl_sign_detached_verify
             verifyMessage w2 req2 _ q2 h kind account nonce sigBytes v
             Hq2 Hreq2 Hp Hv Hok).
  destruct (NonceStore.verifyAndUse nonce (now w1) st) as [[|why1] st1] eqn:Hvu;
    simpl in Hrun; injection Hrun as <-; [|simpl in Hstatus; discriminate].
  simpl.
  assert (fst (NonceStore.verifyAndUse nonce (now w1) st) = NonceStore.Accepted) as Hacc
    by (rewrite Hvu; reflexivity).
  apply verifyAndUse_accepted in Hacc as (e & He & _ & _ & Hst).
  rewrite Hvu in Hst. simpl in Hst. subst st1.
  unfold NonceStore.verifyAndUse. simpl. rewrite lookup_insert_eq. simpl.
  destruct (now w2 >? NonceStore.expiresAt e)%Z; eauto.
Qed.

(** X13. A request makes at most one call on the ledger, and which one
    decides how it can end. If the chain query does not stringify, the
    handler throws at its first statement: no call, no answer, the store
    untouched. Otherwise there is exactly one call: an [issue] of the
    identifier the generator hands out, answered 402 or 500 or, on EVM with
    a receiver and a price that does not convert, ended by that exception,
    and never a grant; or a [verifyAndUse] of the nonce of the header,
    always answered, with 200 or 402. The TTL of the store is never
    changed. *)
Theorem every_request_makes_one_ledger_call (w : env) (req : request)
    (st : NonceStore.t) :
  let r := handlePremium' w req st in
  NonceStore.ttl (store r) = NonceStore.ttl st /\
  ((exists err, chainQuery req = Thrown err /\
      reply r = Thrown err /\ calls r = [] /\ store r = st) \/
   (exists q, chainQuery req = Returned q /\
      ((calls r = [CallIssue (uuid w)] /\
        ((exists answer, reply r = Returned answer /\
            (status answer = 402%Z \/ status answer = 500%Z)) \/
         (exists err, reply r = Thrown err /\ RECEIVER_EVM cfg <> "" /\
            PRICE_ETH_WEI_HEX cfg = Thrown err))) \/
       (exists nonce answer,
          calls r = [CallVerifyAndUse (Some nonce)] /\
          reply r = Returned answer /\
          (status answer = 200%Z \/ status answer = 402%Z))))).
Proof.
  intros r. subst r.
  destruct (handlePremium_paths w req st)
    as [(err & Hq & ->)
       |[(q & chain & Hq & ->)
        |(q & h & kind & account & nonce & sigBytes & v & Hq & Hreq & Hp & Hv & Hok)]].
  - split; [reflexivity|]. left. exists err. auto.
  - split; [reflexivity|]. right. exists q. split; [exact Hq|]. left.
    split; [reflexivity|].
    destruct (send402_status w chain st) as [H | (err & Herr & _ & Hr & Hp)];
      [left; exact H | right; eauto].
  - rewrite (handlePremium_valid_proof cfg bs58_decode nacl_sign_detached_verify
               verifyMessage w req st q h kind account nonce sigBytes v
               Hq Hreq Hp Hv Hok).
    pose proof (verifyAndUse_ttl nonce (now w) st) as Httl.
    destruct (NonceStore.verifyAndUse nonce (now w) st) as [[|why] st'];
      simpl in *; (split; [exact Httl|]); right; exists q; (split; [exact Hq|]);
      right; exists nonce; eexists; (split; [reflexivity|]);
      (split; [reflexivity|]); simpl; auto.
Qed.

Lemma handlePremium_auto_pick w req st q :
  chainQuery req = Returned q ->
  x402_proof req = None \/ x402_proof req = Some "" ->
  q <> "evm" ->
  q <> "solana" ->
  handlePremium' w req st
  = send402 cfg w (if RECEIVER_SOL cfg =? "" then "evm" else "solana") st.
Proof.
  intros Hq Hreq Hevm Hsol. unfold Server.handlePremium. rewrite Hq. cbn [attempt].
  apply String.eqb_neq in Hevm, Hsol. rewrite Hevm, Hsol.
  destruct Hreq as [-> | ->]; reflexivity.
Qed.

(** X14. Without a proof header, and with a chain query that stringifies
    to something other than [evm] and [solana] in whatever case (an absent
    query among them), the handler picks the chain by configuration:
    Solana when a Solana receiver is configured, EVM otherwise. On Solana
    the answer is the 402 challenge for the Solana receiver; on EVM with a
    receiver it is the 402 challenge for the EVM receiver when the price
    converts to wei, and the exception of that conversion, with no answer,
    when it does not. The challenge carries the nonce just issued and the
    configured TTL. *)
Theorem auto_pick_prefers_solana (w : env) (req : request) (st : NonceStore.t)
    (q : string) :
  chainQuery req = Returned q ->
  x402_proof req = None \/ x402_proof req = Some "" ->
  q <> "evm" ->
  q <> "solana" ->
  RECEIVER_SOL cfg <> "" \/ RECEIVER_EVM cfg <> "" ->
  let r := handlePremium' w req st in
  calls r = [CallIssue (uuid w)] /\
  (RECEIVER_SOL cfg <> "" ->
     reply r = Returned
       {| status := 402;
          json := ChallengeBody
            {| x_chain := "solana"; receiver := RECEIVER_SOL cfg;
               amount := PRICE_SOL cfg; x_ttl := TTL_SECONDS cfg;
               x_nonce := uuid w; evmTx := None |} |}) /\
  (RECEIVER_SOL cfg = "" ->
     forall hex, PRICE_ETH_WEI_HEX cfg = Returned hex ->
     reply r = Returned
       {| status := 402;
          json := ChallengeBody
            {| x_chain := "evm"; receiver := RECEIVER_EVM cfg;
               amount := PRICE_ETH cfg; x_ttl := TTL_SECONDS cfg;
               x_nonce := uuid w;
               evmTx := Some {| to := RECEIVER_EVM cfg; value := "0x" +:+ hex;
                                data := "0x" |} |} |}) /\
  (RECEIVER_SOL cfg = "" ->
     forall err, PRICE_ETH_WEI_HEX cfg = Thrown err -> reply r = Thrown err).
Proof.
  intros Hq Hreq Hevm Hsol Hcfg r. subst r.
  rewrite (handlePremium_auto_pick w req st q Hq Hreq Hevm Hsol).
  unfold send402. simpl.
  destruct (RECEIVER_SOL cfg =? "") eqn:Hs.
  - apply String.eqb_eq in Hs. simpl.
    destruct Hcfg as [Hc | Hc]; [congruence|].
    apply String.eqb_neq in Hc. rewrite Hc.
    split; [reflexivity|]. split; [congruence|].
    split; intros _ x ->; reflexivity.
  - simpl. apply String.eqb_neq in Hs.
    split; [reflexivity|]. split; [reflexivity|]. split; congruence.
Qed.

(** X15. A header that does not parse is not answered by configuration: with
    no chain named in the query the handler asks [send402] for Solana, so a
    deployment without a Solana receiver answers 500 ["RECEIVER_SOL not
    set"], whether or not an EVM receiver is configured. *)
Theorem malformed_proof_defaults_to_solana (w : env) (req : request)
    (st : NonceStore.t) (h why : string) :
  x402_proof req = Some h ->
  h <> "" ->
  parseProof (Some h) = Returned (ParseFail why) ->
  chainQuery req = Returned "" ->
  RECEIVER_SOL cfg = "" ->
  let r := handlePremium' w req st in
  reply r = Returned {| status := 500; json := ErrorBody "RECEIVER_SOL not set" |} /\
  calls r = [CallIssue (uuid w)].
Proof.
  intros Hreq Hne Hp Hq Hsol r. subst r.
  destruct h as [|c h]; [congruence|].
  rewrite (handlePremium_header cfg bs58_decode nacl_sign_detached_verify verifyMessage
             w req st "" c h Hq Hreq).
  rewrite Hp. cbn [attempt parsed_ok negb].
  unfold send402, or_else. simpl. rewrite Hsol. simpl. auto.
Qed.

(** X16. A proof that parses but does not verify is answered, when the
    query names no chain, on the chain of the scheme attempted: [send402]
    is asked for EVM after a [metamask] proof and for Solana after a
    [phantom] proof. *)
Theorem failed_proof_challenge_follows_scheme (w : env) (req : request)
    (st : NonceStore.t) (h kind account nonce : string) (sigBytes : list byte)
    (v : verdict) :
  x402_proof req = Some h ->
  parseProof (Some h) = Returned (ParseOk kind account nonce sigBytes) ->
  verifyProof' (Some h) = Returned v ->
  ok v = false ->
  chainQuery req = Returned "" ->
  handlePremium' w req st
  = send402 cfg w (if kind =? "metamask" then "evm" else "solana") st.
Proof.
  intros Hreq Hp Hv Hok Hq.
  destruct h as [|c h]; [discriminate|].
  rewrite (handlePremium_header cfg bs58_decode nacl_sign_detached_verify verifyMessage
             w req st "" c h Hq Hreq).
  rewrite Hp. cbn [attempt parsed_ok negb]. rewrite Hv. cbn [attempt].
  rewrite Hok. cbn [negb parsed_kind]. unfold or_else. simpl.
  destruct (kind =? "metamask") eqn:Hk.
  - apply String.eqb_eq in Hk. subst kind. reflexivity.
  - apply String.eqb_neq in Hk. rewrite bool_decide_eq_false_2 by congruence.
    reflexivity.
Qed.

End GateMore.

(** ** The signature verifier, continued *)

Section VerifierMore.

Import Verify JsString.

Variable bs58_decode : string -> outcome (list byte).
Variable nacl_sign_detached_verify : list byte -> list byte -> list byte -> outcome bool.
Variable verifyMessage : string -> string -> outcome string.

(** X17. [verifyPhantom] always returns a verdict. The verdict is positive
    exactly when the account decodes from base58 and the library accepts the
    signature over the bytes of ["x402-proof:" + nonce] under the decoded
    key; then [who] is the account as claimed and the chain is Solana. When
    the decoding or the library throws, the verdict is
    [phantom_verify_error]. *)
Theorem verifyPhantom_checks_claimed_key (account : string) (sigBytes : list byte)
    (nonce : string) :
  exists v,
    verifyPhantom bs58_decode nacl_sign_detached_verify account sigBytes nonce
      = Returned v /\
    (ok v = true <->
       exists pub, bs58_decode account = Returned pub /\
                   nacl_sign_detached_verify (msgBytes nonce) sigBytes pub = Returned true) /\
    (ok v = true -> who v = Some account /\ chain v = Some "solana") /\
    ((exists err, bs58_decode account = Thrown err) \/
     (exists pub err, bs58_decode account = Returned pub /\
        nacl_sign_detached_verify (msgBytes nonce) sigBytes pub = Thrown err) ->
     v = failure "phantom_verify_error").
Proof.
  unfold verifyPhantom.
  destruct (bs58_decode account) as [pub|e1] eqn:Hdec; simpl.
  - destruct (nacl_sign_detached_verify (msgBytes nonce) sigBytes pub) as [b|e2] eqn:Hv;
      simpl; eexists; (split; [reflexivity|]); simpl.
    + split; [|split].
      * split; [intros ->; eauto|]. intros (pub' & [= <-] & Hv'). congruence.
      * auto.
      * intros [(err & [=]) | (pub' & err & [= <-] & Hv')]. congruence.
    + split; [|split].
      * split; [discriminate|]. intros (pub' & [= <-] & Hv'). congruence.
      * discriminate.
      * reflexivity.
  - eexists. split; [reflexivity|]. simpl. split; [|split].
    + split; [discriminate|]. intros (pub' & [=] & _).
    + discriminate.
    + reflexivity.
Qed.

(** X18. A positive verdict of [verifyProof] is never reached without the
    library: the header is a string that parses, and either its kind is
    [phantom], its account decodes and the detached signature is accepted
    under it, or its kind is [metamask] and the address recovered from the
    signature equals the account up to letter case. [who] is the claimed
    account in the first case and the recovered address in the second. *)
Theorem positive_verdict_comes_from_library (header : option string) (v : verdict) :
  verifyProof bs58_decode nacl_sign_detached_verify verifyMessage header = Returned v ->
  ok v = true ->
  exists h kind account nonce sigBytes,
    header = Some h /\
    parseProof (Some h) = Returned (ParseOk kind account nonce sigBytes) /\
    ((kind = "phantom" /\ who v = Some account /\ chain v = Some "solana" /\
      exists pub, bs58_decode account = Returned pub /\
                  nacl_sign_detached_verify (msgBytes nonce) sigBytes pub = Returned true) \/
     (kind = "metamask" /\ chain v = Some "evm" /\
      exists recovered,
        verifyMessage ("x402-proof:" +:+ nonce) ("0x" +:+ Buffer.to_hex sigBytes)
          = Returned recovered /\
        who v = Some recovered /\
        toLowerCase recovered = toLowerCase account)).
Proof.
  intros Hrun Hok. unfold verifyProof in Hrun.
  destruct (parseProof_returns header) as (p & Hp & Hkind).
  rewrite Hp in Hrun. cbn [Js.bind] in Hrun.
  destruct p as [r | kind account nonce sigBytes].
  { injection Hrun as <-. discriminate. }
  destruct header as [h|]; [|discriminate].
  exists h, kind, account, nonce, sigBytes. split; [reflexivity|]. split; [exact Hp|].
  destruct Hkind as [-> | ->]; simpl in Hrun.
  - left. split; [reflexivity|].
    unfold verifyPhantom in Hrun.
    destruct (bs58_decode account) as [pub|e1]; simpl in Hrun;
      [|injection Hrun as <-; discriminate].
    destruct (nacl_sign_detached_verify (msgBytes nonce) sigBytes pub) as [b|e2] eqn:Hv;
      simpl in Hrun; injection Hrun as <-; [|discriminate].
    simpl in Hok. subst b. simpl. eauto.
  - right. split; [reflexivity|].
    unfold verifyMetaMask in Hrun.
    destruct (verifyMessage ("x402-proof:" +:+ nonce) ("0x" +:+ Buffer.to_hex sigBytes))
      as [recovered|e] eqn:Hrec; simpl in Hrun; injection Hrun as <-; [|discriminate].
    simpl in Hok. apply String.eqb_eq in Hok. simpl. eauto.
Qed.

End VerifierMore.

(** ** The proof codec, continued *)

Section CodecMore.

Import Verify JsString Fields.

Lemma split_head sep s :
  forall a rest,
    split sep s = a :: rest ->
    mentions sep a = false /\
    ((rest = [] /\ s = a) \/
     (exists s', s = a +:+ String sep s' /\ split sep s' = rest)).
Proof.
  induction s as [|c s IH]; intros a rest Hs; simpl in Hs.
  - injection Hs as <- <-. auto.
  - destruct (Ascii.eqb c sep) eqn:Hc.
    + apply Ascii.eqb_eq in Hc. subst c. injection Hs as <- <-.
      split; [reflexivity|]. right. exists s. auto.
    + destruct (split sep s) as [|seg segs] eqn:Hsplit;
        [destruct (split_nonempty sep s Hsplit)|].
      injection Hs as <- <-.
      destruct (IH seg segs eq_refl) as [Hfree Hshape].
      split; [simpl; rewrite Hc, Hfree; reflexivity|].
      destruct Hshape as [[-> ->] | (s' & -> & Hrest)]; [left; auto|].
      right. exists s'. auto.
Qed.

Lemma split_length sep s : length (split sep s) = S (occurrences sep s).
Proof.
  induction s as [|c s IH]; simpl; [reflexivity|].
  destruct (Ascii.eqb c sep); simpl.
  - rewrite IH. reflexivity.
  - destruct (split sep s) as [|seg segs] eqn:Hs; [destruct (split_nonempty sep s Hs)|].
    simpl in *. exact IH.
Qed.

(** X19. A successful parse comes from a header of exactly the four-field
    form: the header is [kind:account:nonce:b64sig] for a registered kind,
    none of account, nonce and signature text contains a colon, and the
    signature bytes are what the base64 decoder makes of the fourth field. *)
Theorem parsed_fields_come_from_header (h kind account nonce : string)
    (sigBytes : list byte) :
  parseProof (Some h) = Returned (ParseOk kind account nonce sigBytes) ->
  exists b64sig,
    h = kind +:+ ":" +:+ account +:+ ":" +:+ nonce +:+ ":" +:+ b64sig /\
    (kind = "phantom" \/ kind = "metamask") /\
    mentions ":" account = false /\
    mentions ":" nonce = false /\
    mentions ":" b64sig = false /\
    Buffer.from_base64 b64sig = Returned sigBytes.
Proof.
  intros Hp.
  destruct (parseProof_returns (Some h)) as (p & Hp' & Hkind).
  rewrite Hp in Hp'. injection Hp' as <-.
  assert (h <> "") as Hne by (intros ->; discriminate).
  destruct (split ":" h) as [|s1 [|s2 [|s3 [|s4 [|s5 l]]]]] eqn:Hs;
    try (unfold parseProof in Hp; destruct h; [congruence|]; rewrite Hs in Hp; discriminate).
  rewrite (parseProof_four s1 s2 s3 s4 h Hne Hs) in Hp.
  destruct (negb (s1 =? "phantom") && negb (s1 =? "metamask")); [discriminate|].
  injection Hp as -> -> -> <-.
  destruct (split_head ":" h _ _ Hs) as [_ [[[=] _] | (h1 & -> & Hs1)]].
  destruct (split_head ":" h1 _ _ Hs1) as [Hacc [[[=] _] | (h2 & -> & Hs2)]].
  destruct (split_head ":" h2 _ _ Hs2) as [Hnonce [[[=] _] | (h3 & -> & Hs3)]].
  destruct (split_head ":" h3 _ _ Hs3) as [Hsig [[_ ->] | (h4 & _ & Hs4)]];
    [|destruct (split_nonempty ":" h4 Hs4)].
  exists s4. repeat split; auto.
Qed.

Lemma parsed_fields_come_from_header_witness :
  exists b64sig,
    Scenario.good_header
    = "metamask" +:+ ":" +:+ "0x7e5f4552091a69125d5dfcb7b8c2659029395bdf" +:+ ":"
        +:+ "n-1" +:+ ":" +:+ b64sig /\
    Buffer.from_base64 b64sig = Returned Scenario.sig65.
Proof.
  destruct (parsed_fields_come_from_header Scenario.good_header "metamask"
              "0x7e5f4552091a69125d5dfcb7b8c2659029395bdf" "n-1" Scenario.sig65)
    as (b64sig & Hh & _ & _ & _ & _ & Hdec).
  - vm_compute. reflexivity.
  - exists b64sig. auto.
Defined.

(** X20. For a string header that is not empty, [bad_format] is a matter
    of counting colons: the parse fails with [bad_format] exactly when the
    header does not contain exactly three of them. *)
Theorem bad_format_iff_not_three_colons (h : string) :
  h <> "" ->
  (parseProof (Some h) = Returned (ParseFail "bad_format")
   <-> occurrences ":" h <> 3%nat).
Proof.
  intros Hne. pose proof (split_length ":" h) as Hlen. split.
  - intros Hbad Hthree. rewrite Hthree in Hlen.
    destruct (split ":" h) as [|s1 [|s2 [|s3 [|s4 [|s5 l]]]]] eqn:Hs;
      simpl in Hlen; try discriminate.
    rewrite (parseProof_four s1 s2 s3 s4 h Hne Hs) in Hbad.
    destruct (negb (s1 =? "phantom") && negb (s1 =? "metamask")); discriminate.
  - intros Hcount. apply parseProof_not_four; [exact Hne|]. lia.
Qed.

Lemma bad_format_iff_not_three_colons_witness :
  parseProof (Some "phantom:acct:n-1") = Returned (ParseFail "bad_format").
Proof.
  apply (bad_format_iff_not_three_colons "phantom:acct:n-1"); [discriminate|].
  simpl. lia.
Defined.

End CodecMore.

(** ** The signed message *)

Section Message.

Import Verify Buffer.

Lemma byte_of_N_inj n m :
  (n < 256)%N -> (m < 256)%N -> byte_of_N n = byte_of_N m -> n = m.
Proof.
  assert (forall k, (k < 256)%N -> Byte.to_N (byte_of_N k) = k) as Hback.
  { intros k Hk. unfold byte_of_N. rewrite N.mod_small by exact Hk.
    destruct (Byte.of_N k) as [b|] eqn:Hb.
    - apply Byte.to_of_N, Hb.
    - apply Byte.of_N_None_iff in Hb. lia. }
  intros Hn Hm Heq. rewrite <- (Hback n Hn), <- (Hback m Hm), Heq. reflexivity.
Qed.

Lemma N_of_ascii_inj c d : N_of_ascii c = N_of_ascii d -> c = d.
Proof.
  intros H. rewrite <- (ascii_N_embedding c), <- (ascii_N_embedding d), H. reflexivity.
Qed.

Lemma lead_byte_range n :
  (n < 256)%N ->
  (192 <= N.lor 192 (N.shiftr n 6) < 256)%N /\ (N.lor 128 (N.land n 63) < 256)%N.
Proof.
  intros Hn.
  pose proof (below_1 256
    (fun n => (192 <=? N.lor 192 (N.shiftr n 6))%N
              && (N.lor 192 (N.shiftr n 6) <? 256)%N
              && (N.lor 128 (N.land n 63) <? 256)%N) n) as H.
  cbv beta in H.
  specialize (H ltac:(vm_compute; reflexivity) ltac:(simpl; lia)).
  apply andb_true_iff in H as [H H3]. apply andb_true_iff in H as [H1 H2].
  apply N.leb_le in H1. apply N.ltb_lt in H2, H3. lia.
Qed.

Lemma two_bytes_inj n m :
  (n < 256)%N -> (m < 256)%N ->
  N.lor 192 (N.shiftr n 6) = N.lor 192 (N.shiftr m 6) ->
  N.lor 128 (N.land n 63) = N.lor 128 (N.land m 63) ->
  n = m.
Proof.
  intros Hn Hm Hhi Hlo.
  pose proof (below_2 256 256
    (fun n m => implb ((N.lor 192 (N.shiftr n 6) =? N.lor 192 (N.shiftr m 6))%N
                       && (N.lor 128 (N.land n 63) =? N.lor 128 (N.land m 63))%N)
                      (n =? m)%N) n m) as H.
  cbv beta in H.
  specialize (H ltac:(vm_compute; reflexivity) ltac:(simpl; lia) ltac:(simpl; lia)).
  rewrite Hhi, Hlo, !N.eqb_refl in H. simpl in H. apply N.eqb_eq, H.
Qed.

Lemma utf8_unit_app_inj (c d : ascii) (l1 l2 : list byte) :
  (utf8_unit c ++ l1 = utf8_unit d ++ l2)%list -> c = d /\ l1 = l2.
Proof.
  unfold utf8_unit.
  pose proof (N_ascii_bounded c) as Hc. pose proof (N_ascii_bounded d) as Hd.
  destruct (lead_byte_range _ Hc) as [Hc1 Hc2].
  destruct (lead_byte_range _ Hd) as [Hd1 Hd2].
  destruct (N.ltb_spec (N_of_ascii c) 128) as [Hcs|Hcs];
    destruct (N.ltb_spec (N_of_ascii d) 128) as [Hds|Hds];
    simpl; intros Heq.
  - injection Heq as Hb ->. apply byte_of_N_inj in Hb; [|lia..].
    split; [apply N_of_ascii_inj, Hb | reflexivity].
  - injection Heq as Hb _. apply byte_of_N_inj in Hb; lia.
  - injection Heq as Hb _. apply byte_of_N_inj in Hb; lia.
  - injection Heq as Hb1 Hb2 ->.
    apply byte_of_N_inj in Hb1; [|lia..]. apply byte_of_N_inj in Hb2; [|lia..].
    split; [|reflexivity]. apply N_of_ascii_inj, two_bytes_inj; assumption.
Qed.

Lemma utf8_unit_nonempty c : utf8_unit c <> [].
Proof. unfold utf8_unit. destruct (N_of_ascii c <? 128)%N; discriminate. Qed.

Lemma from_utf8_inj s1 : forall s2, from_utf8 s1 = from_utf8 s2 -> s1 = s2.
Proof.
  induction s1 as [|c s1 IH]; intros [|d s2]; simpl; intros H.
  - reflexivity.
  - symmetry in H. apply app_eq_nil in H as [H _]. destruct (utf8_unit_nonempty d H).
  - apply app_eq_nil in H as [H _]. destruct (utf8_unit_nonempty c H).
  - apply utf8_unit_app_inj in H as [-> H]. rewrite (IH s2 H). reflexivity.
Qed.

(** X21. Distinct nonces give distinct messages to sign: [msgBytes] is
    injective, so the bytes signed for one nonce are the bytes signed for
    no other. *)
Theorem msgBytes_injective (nonce1 nonce2 : string) :
  nonce1 <> nonce2 -> msgBytes nonce1 <> msgBytes nonce2.
Proof.
  unfold msgBytes. intros Hne H. apply from_utf8_inj in H.
  simpl in H. injection H as H. exact (Hne H).
Qed.

Lemma msgBytes_injective_witness : msgBytes "n-1" <> msgBytes "n-2".
Proof. apply (msgBytes_injective "n-1" "n-2"). discriminate. Defined.

End Message.

(** ** The gate on further concrete requests *)

Section GateMoreScenarios.

Import Verify Server Scenario Cases.

Lemma grant_requires_valid_proof_and_nonce_witness :
  exists h kind account nonce sigBytes v e,
    x402_proof (request_with good_header) = Some h /\
    parseProof (Some h) = Returned (ParseOk kind account nonce sigBytes) /\
    Verify.verifyProof bs58_decoded nacl_rejects recovers_signer (Some h) = Returned v /\
    ok v = true /\
    PremiumBody (Some signer) (Some "evm") 5000 = PremiumBody (who v) (chain v) 5000 /\
    NonceStore.map store_with_n1 !! nonce = Some e /\
    NonceStore.used e = false /\ (5000 <= NonceStore.expiresAt e)%Z /\
    store (Server.handlePremium configured bs58_decoded nacl_rejects recovers_signer
             at_5000 (request_with good_header) store_with_n1)
    = {| NonceStore.ttl := NonceStore.ttl store_with_n1;
         NonceStore.map :=
           <[nonce := NonceStore.mark_used e]> (NonceStore.map store_with_n1) |}.
Proof.
  exact (grant_requires_valid_proof_and_nonce configured bs58_decoded nacl_rejects
           recovers_signer at_5000 (request_with good_header) store_with_n1
           {| status := 200; json := PremiumBody (Some signer) (Some "evm") 5000 |}
           eq_refl eq_refl).
Defined.

Lemma valid_proof_is_granted_witness :
  Server.handlePremium configured bs58_decoded nacl_rejects recovers_signer
    at_5000 (request_with good_header) store_with_n1
  = {| reply := Returned {| status := 200;
                            json := PremiumBody (Some signer) (Some "evm") 5000 |};
       store := snd (NonceStore.verifyAndUse "n-1" 5000 store_with_n1);
       calls := [CallVerifyAndUse (Some "n-1")] |}.
Proof.
  exact (valid_proof_is_granted configured bs58_decoded nacl_rejects recovers_signer
           at_5000 (request_with good_header) store_with_n1
           "" good_header "metamask" "0x7e5f4552091a69125d5dfcb7b8c2659029395bdf" "n-1"
           sig65 {| ok := true; who := Some signer; chain := Some "evm"; reason := None |}
           eq_refl eq_refl eq_refl eq_refl eq_refl eq_refl).
Defined.

Lemma granted_proof_is_refused_again_witness :
  exists why,
    Server.handlePremium configured bs58_decoded nacl_rejects recovers_signer
      at_9000 (request_with good_header)
      (store (Server.handlePremium configured bs58_decoded nacl_rejects recovers_signer
                at_5000 (request_with good_header) store_with_n1))
    = {| reply := Returned {| status := 402; json := ErrorBody why |};
         store := store (Server.handlePremium configured bs58_decoded nacl_rejects
                           recovers_signer at_5000 (request_with good_header)
                           store_with_n1);
         calls := calls (Server.handlePremium configured bs58_decoded nacl_rejects
                           recovers_signer at_5000 (request_with good_header)
                           store_with_n1) |} /\
    (why = "nonce_replayed" \/ why = "nonce_expired").
Proof.
  exact (granted_proof_is_refused_again configured bs58_decoded nacl_rejects
           recovers_signer at_5000 at_9000 (request_with good_header)
           (request_with good_header) store_with_n1
           {| status := 200; json := PremiumBody (Some signer) (Some "evm") 5000 |}
           "" good_header eq_refl eq_refl eq_refl eq_refl eq_refl).
Defined.

(** A request that is not answered: [?chain[toString]=x], no proof header. *)
Example query_with_toString_member_throws :
  let r := Server.handlePremium configured bs58_decoded nacl_rejects recovers_signer
             at_5000 {| query_chain := Some toString_query; x402_proof := None |}
             store_with_n1 in
  reply r = Thrown "TypeError: toString is not a function" /\
  calls r = [] /\ store r = store_with_n1.
Proof. repeat split. Qed.

(** A request that is not answered, after a nonce has been issued: EVM
    picked, and a price that is not a number. *)
Example bad_price_throws_after_issue :
  let r := Server.handlePremium evm_only_bad_price bs58_decoded nacl_rejects
             recovers_signer at_5000 (no_header "") fresh_store in
  reply r = Thrown "RangeError: The number NaN cannot be converted to a BigInt" /\
  calls r = [CallIssue "u-9"] /\
  store r = snd (NonceStore.issue "u-9" 5000 fresh_store).
Proof. repeat split. Qed.

Lemma auto_pick_prefers_solana_witness :
  let r := Server.handlePremium evm_only bs58_decoded nacl_rejects recovers_signer
             at_5000 (no_header "EVM-mainnet") fresh_store in
  calls r = [CallIssue "u-9"] /\
  reply r = Returned
    {| status := 402;
       json := ChallengeBody
         {| x_chain := "evm"; receiver := RECEIVER_EVM evm_only;
            amount := PRICE_ETH evm_only; x_ttl := 300; x_nonce := "u-9";
            evmTx := Some {| to := RECEIVER_EVM evm_only;
                             value := "0x5af3107a4000"; data := "0x" |} |} |}.
Proof.
  destruct (auto_pick_prefers_solana evm_only bs58_decoded nacl_rejects recovers_signer
              at_5000 (no_header "EVM-mainnet") fresh_store "evm-mainnet")
    as (Hcalls & _ & Hevm & _).
  - reflexivity.
  - left. reflexivity.
  - discriminate.
  - discriminate.
  - right. discriminate.
  - split; [exact Hcalls|]. exact (Hevm eq_refl "5af3107a4000" eq_refl).
Defined.

Lemma malformed_proof_defaults_to_solana_witness :
  let r := Server.handlePremium evm_only bs58_decoded nacl_rejects recovers_signer
             at_5000 (request_with "garbage") fresh_store in
  reply r = Returned {| status := 500; json := ErrorBody "RECEIVER_SOL not set" |} /\
  calls r = [CallIssue "u-9"].
Proof.
  apply (malformed_proof_defaults_to_solana evm_only bs58_decoded nacl_rejects
           recovers_signer at_5000 (request_with "garbage") fresh_store
           "garbage" "bad_format").
  - reflexivity.
  - discriminate.
  - reflexivity.
  - reflexivity.
  - reflexivity.
Defined.

Lemma failed_proof_challenge_follows_scheme_witness :
  Server.handlePremium configured bs58_decoded nacl_rejects recovers_signer
    at_5000 (request_with other_account_header) store_with_n1
  = send402 configured at_5000 "evm" store_with_n1 /\
  Server.handlePremium configured bs58_decoded nacl_rejects recovers_signer
    at_5000 (request_with sol_wrong_header) store_with_n1
  = send402 configured at_5000 "solana" store_with_n1.
Proof.
  split.
  - exact (failed_proof_challenge_follows_scheme configured bs58_decoded nacl_rejects
             recovers_signer at_5000 (request_with other_account_header) store_with_n1
             other_account_header "metamask" "0x5B38Da6a701c568545dCfcB03FcB875f56beddC4"
             "n-1" sig65
             {| ok := false; who := Some signer; chain := Some "evm"; reason := None |}
             eq_refl eq_refl eq_refl eq_refl eq_refl).
  - exact (failed_proof_challenge_follows_scheme configured bs58_decoded nacl_rejects
             recovers_signer at_5000 (request_with sol_wrong_header) store_with_n1
             sol_wrong_header "phantom" sol_account "n-1" sig64_wrong
             {| ok := false; who := Some sol_account; chain := Some "solana";
                reason := None |}
             eq_refl eq_refl eq_refl eq_refl eq_refl).
Defined.

Lemma positive_verdict_comes_from_library_witness :
  exists h kind account nonce sigBytes,
    Some good_header = Some h /\
    parseProof (Some h) = Returned (ParseOk kind account nonce sigBytes) /\
    kind = "metamask" /\
    JsString.toLowerCase signer = JsString.toLowerCase account.
Proof.
  destruct (positive_verdict_comes_from_library bs58_decoded nacl_rejects recovers_signer
              (Some good_header)
              {| ok := true; who := Some signer; chain := Some "evm"; reason := None |}
              eq_refl eq_refl)
    as (h & kind & account & nonce & sigBytes & Hh & Hp & Hcase).
  exists h, kind, account, nonce, sigBytes. split; [exact Hh|]. split; [exact Hp|].
  destruct Hcase as [(Hk & _) | (Hk & _ & recovered & Hrec & _ & Hlow)].
  - injection Hh as <-. vm_compute in Hp. injection Hp as <- _ _ _. discriminate.
  - split; [exact Hk|].
    injection Hh as <-. vm_compute in Hp. injection Hp as _ <- <- <-.
    vm_compute in Hrec. injection Hrec as <-. exact Hlow.
Defined.

End GateMoreScenarios.

(** ** Challenge, then payment *)

Section Flow.

Import Verify Server.

Variable cfg : Config.
Variable bs58_decode : string -> outcome (list byte).
Variable nacl_sign_detached_verify : list byte -> list byte -> list byte -> outcome bool.
Variable verifyMessage : string -> string -> outcome string.

(** X22. The nonce of a challenge unlocks exactly until its TTL has run
    out. After [send402] has issued a nonce at clock [now w1], a request
    whose proof parses, verifies and names that nonce is granted when its
    clock reading is at most [now w1 + ttl * 1000], and is answered 402
    [nonce_expired] when it is later; this holds also when [send402] itself
    answered 500. (The request gets as far as the proof only when its chain
    query stringifies.) *)
Theorem challenge_nonce_unlocks_until_expiry (w1 w2 : env) (asked : string)
    (req : request) (st : NonceStore.t) (q h kind account : string)
    (sigBytes : list byte) (v : verdict) :
  chainQuery req = Returned q ->
  x402_proof req = Some h ->
  parseProof (Some h) = Returned (ParseOk kind account (uuid w1) sigBytes) ->
  Verify.verifyProof bs58_decode nacl_sign_detached_verify verifyMessage (Some h)
    = Returned v ->
  ok v = true ->
  let r := Server.handlePremium cfg bs58_decode nacl_sign_detached_verify verifyMessage
             w2 req (store (send402 cfg w1 asked st)) in
  calls r = [CallVerifyAndUse (Some (uuid w1))] /\
  ((now w2 <= now w1 + NonceStore.ttl st * 1000)%Z ->
     reply r = Returned {| status := 200;
                           json := PremiumBody (who v) (chain v) (now w2) |}) /\
  ((now w2 > now w1 + NonceStore.ttl st * 1000)%Z ->
     reply r = Returned {| status := 402; json := ErrorBody "nonce_expired" |}).
Proof.
  intros Hq Hreq Hp Hv Hok r. subst r.
  rewrite (handlePremium_valid_proof cfg bs58_decode nacl_sign_detached_verify
             verifyMessage w2 req _ q h kind account (uuid w1) sigBytes v
             Hq Hreq Hp Hv Hok).
  unfold send402, NonceStore.verifyAndUse. simpl. rewrite lookup_insert_eq. simpl.
  destruct (Z.gtb_spec (now w2) (now w1 + NonceStore.ttl st * 1000));
    simpl; (split; [reflexivity|]); split; intros; (reflexivity || lia).
Qed.

End Flow.

Lemma challenge_nonce_unlocks_until_expiry_witness :
  Server.reply
    (Server.handlePremium Scenario.configured Scenario.bs58_decoded Scenario.nacl_rejects
       Scenario.recovers_signer Cases.at_9000 (Scenario.request_with Scenario.good_header)
       (Server.store (Server.send402 Scenario.configured
                        {| Server.now := 5000; Server.uuid := "n-1" |} "evm"
                        Scenario.fresh_store)))
  = Returned {| Server.status := 200;
                Server.json := Server.PremiumBody (Some Scenario.signer) (Some "evm") 9000 |}.
Proof.
  destruct (challenge_nonce_unlocks_until_expiry Scenario.configured
              Scenario.bs58_decoded Scenario.nacl_rejects Scenario.recovers_signer
              {| Server.now := 5000; Server.uuid := "n-1" |} Cases.at_9000 "evm"
              (Scenario.request_with Scenario.good_header) Scenario.fresh_store
              "" Scenario.good_header "metamask"
              "0x7e5f4552091a69125d5dfcb7b8c2659029395bdf" Scenario.sig65
              {| Verify.ok := true; Verify.who := Some Scenario.signer;
                 Verify.chain := Some "evm"; Verify.reason := None |}
              eq_refl eq_refl eq_refl eq_refl eq_refl)
    as (_ & Hgrant & _).
  apply Hgrant. simpl. lia.
Defined.

(** ** What a collection leaves *)

Section Collected.

Import NonceStore Trace.

Local Open Scope Z_scope.

(** X23. What [gc] leaves is bounded in age: in a store reached from a new
    one, every entry still present after a [gc] at time [t] is unused and
    was created at [t - ttl * 1000 - 60000] or later. *)
Theorem collected_store_is_recent (ttl0 t : Z) (evs : list event) (n : string)
    (e : entry) :
  map (gc t (replay (create ttl0) evs)) !! n = Some e ->
  used e = false /\ t - ttl0 * 1000 - 60000 <= createdAt e.
Proof.
  intros He. apply gc_lookup_iff in He as (He & Hu & Hle).
  destruct (replay_span ttl0 evs) as [_ Hspan].
  rewrite (Hspan n e He) in Hle. split; [exact Hu | lia].
Qed.

Lemma collected_store_is_recent_witness :
  4000 - 300 * 1000 - 60000 <= 1000.
Proof.
  apply (collected_store_is_recent 300 4000 [Event 1000 (Issue "n-1")] "n-1"
           {| createdAt := 1000; expiresAt := 301000; used := false |}).
  reflexivity.
Defined.

End Collected.
